(** * TikTok downloader: the two request handlers of [server/routes.ts]

    A shallow embedding of [registerRoutes]: the metadata handler
    ([POST /api/tiktok/info]) with its five formatting closures and the
    [responseData] literal, and the download handler
    ([GET /api/tiktok/download/:type]).

    Conventions.
    - A JavaScript string is the list of its UTF-16 code units ([jsstring]).
    - A JavaScript number is a binary64 value ([float], the kernel's
      primitive floats); the numeric built-ins the handlers call
      ([Math.floor], [%], [Math.round], [toFixed], number-to-string) are
      computed exactly from the decoded mantissa and exponent.
    - The extractor's JSON document is read through typed optional fields
      (string, number or boolean, each possibly absent or [null]), the types
      yt-dlp documents for them and the closures' own annotations.
    - What the host decides is a parameter: the local time zone, Unicode
      upper-casing, the URL validator (defined outside [server/]), and the
      outcomes of the external calls a handler makes.
    - A handler's run is the sequence of calls it makes and the way it ends:
      it returns, it waits for ever, or an exception no [catch] clause
      reaches ends the server process. [res.setHeader] throws on a value
      Node does not accept.
    - The body handed to [res.json] and the document that is sent are kept
      apart: the second is what [JSON.stringify] writes for the first. *)

From Stdlib Require Import Strings.String Strings.Ascii.
From Stdlib Require Import ZArith List Bool Lia Floats.
Import ListNotations.

Open Scope Z_scope.

(* ================================================================= *)
(** ** Strings *)

(** A string is a sequence of 16-bit code units. *)
Definition jsstring := list N.

(** An ASCII literal as a JavaScript string. *)
Definition lit (s : string) : jsstring :=
  map N_of_ascii (list_ascii_of_string s).

Fixpoint str_eqb (a b : jsstring) : bool :=
  match a, b with
  | [], [] => true
  | x :: a', y :: b' => N.eqb x y && str_eqb a' b'
  | _, _ => false
  end.

Fixpoint uint_units (d : Decimal.uint) : jsstring :=
  match d with
  | Decimal.Nil => []
  | Decimal.D0 d => 48%N :: uint_units d
  | Decimal.D1 d => 49%N :: uint_units d
  | Decimal.D2 d => 50%N :: uint_units d
  | Decimal.D3 d => 51%N :: uint_units d
  | Decimal.D4 d => 52%N :: uint_units d
  | Decimal.D5 d => 53%N :: uint_units d
  | Decimal.D6 d => 54%N :: uint_units d
  | Decimal.D7 d => 55%N :: uint_units d
  | Decimal.D8 d => 56%N :: uint_units d
  | Decimal.D9 d => 57%N :: uint_units d
  end.

(** The decimal digits of a non-negative integer (["0"] for zero; a negative
    argument is read as zero). *)
Definition decimal (n : Z) : jsstring := uint_units (N.to_uint (Z.to_N n)).

Definition is_digit (c : N) : bool := ((48 <=? c) && (c <=? 57))%N.

Definition digit_val (c : N) : Z := Z.of_N c - 48.

(** The value of a string of decimal digits, most significant first. *)
Definition digits_val (s : jsstring) : Z :=
  fold_left (fun acc c => 10 * acc + digit_val c) s 0.

(** The double-quote character. *)
Definition dquote : jsstring := [34%N].

(** [String.prototype.substring(a, b)] for [0 <= a <= b]. *)
Definition substring (a b : nat) (s : jsstring) : jsstring :=
  firstn (b - a) (skipn a s).

(** [String.prototype.padStart(n, "0")]. *)
Definition padStart0 (n : nat) (s : jsstring) : jsstring :=
  repeat 48%N (n - length s) ++ s.

(* ================================================================= *)
(** ** Values that may be missing *)

(** A property read off a parsed JSON object: missing ([undefined]), JSON
    [null], or a value of the property's type. *)
Inductive opt (A : Type) : Type :=
| Undefined
| Null
| Val (a : A).
Arguments Undefined {A}.
Arguments Null {A}.
Arguments Val {A} a.

(** [ToBoolean] on the three primitive types the handlers test. *)
Class Truthy (A : Type) := truthy : A -> bool.

#[export] Instance truthy_number : Truthy float :=
  fun x => negb (PrimFloat.eqb x 0 || is_nan x).
#[export] Instance truthy_string : Truthy jsstring :=
  fun s => match s with [] => false | _ => true end.
#[export] Instance truthy_boolean : Truthy bool := fun b => b.

Definition truthy_opt {A} `{Truthy A} (a : opt A) : bool :=
  match a with
  | Val x => truthy x
  | _ => false
  end.

(** [a || b]: the left operand when it is truthy, else the right one. *)
Definition js_or {A} `{Truthy A} (a b : opt A) : opt A :=
  if truthy_opt a then a else b.

Declare Scope js_scope.
Delimit Scope js_scope with js.
Infix "|||" := js_or (at level 50, left associativity) : js_scope.

(** [ToNumber] of a possibly missing number: [undefined] is NaN, [null] is 0. *)
Definition ToNumber (a : opt float) : float :=
  match a with
  | Undefined => nan
  | Null => 0%float
  | Val x => x
  end.

(** [ToString] of a possibly missing string. *)
Definition ToString_str (a : opt jsstring) : jsstring :=
  match a with
  | Undefined => lit "undefined"
  | Null => lit "null"
  | Val s => s
  end.

(* ================================================================= *)
(** ** Numbers *)

Module Number.

(** The float of an integer (correctly rounded; exact below [2^53]). *)
Definition of_Z (z : Z) : float :=
  SF2Prim (binary_normalize prec emax z 0 false).

(** [Math.floor]. *)
Definition floor (x : float) : float :=
  match Prim2SF x with
  | S754_finite s m e =>
      if 0 <=? e then x
      else
        let q := Z.shiftr (Zpos m) (- e) in
        let exact := Z.shiftl q (- e) =? Zpos m in
        if s then of_Z (- (if exact then q else q + 1)) else of_Z q
  | _ => x
  end.

(** The remainder operator [x % y]: the sign of the dividend, computed
    without rounding. *)
Definition rem (x y : float) : float :=
  match Prim2SF x, Prim2SF y with
  | S754_nan, _ | _, S754_nan => nan
  | S754_infinity _, _ => nan
  | _, S754_zero _ => nan
  | _, S754_infinity _ => x
  | S754_zero _, _ => x
  | S754_finite sx mx ex, S754_finite _ my ey =>
      let e := Z.min ex ey in
      let r := Z.modulo (Zpos mx * 2 ^ (ex - e)) (Zpos my * 2 ^ (ey - e)) in
      if r =? 0 then (if sx then neg_zero else zero)
      else SF2Prim (binary_normalize prec emax (if sx then - r else r) e false)
  end.

(** [Math.round]: the nearest integer, ties toward positive infinity. *)
Definition round (x : float) : float :=
  match Prim2SF x with
  | S754_finite s m e =>
      if 0 <=? e then x
      else
        let d := 2 ^ (- e) in
        let n := Z.div (2 * (if s then Zneg m else Zpos m) + d) (2 * d) in
        if n =? 0 then (if s then neg_zero else zero) else of_Z n
  | _ => x
  end.

(** Truncation of a finite number toward zero, as an integer. *)
Definition trunc (x : float) : option Z :=
  match Prim2SF x with
  | S754_zero _ => Some 0
  | S754_finite s m e =>
      let a := if 0 <=? e then Zpos m * 2 ^ e else Z.shiftr (Zpos m) (- e) in
      Some (if s then - a else a)
  | _ => None
  end.

(** *** Number to string *)

(** [c * 10^(-p)] compared with [num / den] ([den > 0]). *)
Definition cmp_scaled (c p num den : Z) : comparison :=
  if 0 <=? p then Z.compare (c * den) (num * 10 ^ p)
  else Z.compare (c * 10 ^ (- p) * den) num.

Definition nb_digits (n : Z) : Z :=
  Z.of_nat (length (decimal n)).

(** For a positive finite [m * 2^e]: the integer [n] with
    [10^(n-1) <= m * 2^e < 10^n]. *)
Definition magnitude (m e : Z) : Z :=
  let vn := if 0 <=? e then m * 2 ^ e else m in
  let vd := if 0 <=? e then 1 else 2 ^ (- e) in
  if vd <=? vn then nb_digits (vn / vd)
  else
    let d := nb_digits (vd / vn) in
    (* 10^(d-1) <= vd/vn, so v <= 10^(1-d); v may still reach 10^(-d+1) *)
    if vd <=? vn * 10 ^ (d - 1) then 2 - d else 1 - d.

Fixpoint strip_zeros_rev (r : jsstring) : jsstring :=
  match r with
  | 48%N :: r' => strip_zeros_rev r'
  | _ => r
  end.

Definition strip_trailing_zeros (s : jsstring) : jsstring :=
  rev (strip_zeros_rev (rev s)).

(** The shortest decimal that reads back as the positive finite double
    [m * 2^e] (round to nearest, ties to even), and among the shortest the
    closest one: its digits and the position [n] of the decimal point. *)
Fixpoint shortest_from (fuel : nat) (k : Z) (m e n0 : Z) : jsstring * Z :=
  let u_n := if 0 <=? e - 2 then 2 ^ (e - 2) else 1 in
  let u_d := if 0 <=? e - 2 then 1 else 2 ^ (2 - e) in
  let boundary := (m =? 2 ^ 52) && (-1074 <? e) in
  let lo := (if boundary then 4 * m - 1 else 4 * m - 2) * u_n in
  let hi := (4 * m + 2) * u_n in
  let v := 4 * m * u_n in
  let inclusive := Z.even m in
  let p := k - n0 in
  let inside c :=
    match cmp_scaled c p lo u_d, cmp_scaled c p hi u_d with
    | Gt, Lt => true
    | Eq, _ | _, Eq => inclusive
    | _, _ => false
    end in
  let s_lo := if 0 <=? p then (v * 10 ^ p) / u_d else v / (u_d * 10 ^ (- p)) in
  let s_hi := s_lo + 1 in
  let finish c :=
    let ds := decimal c in
    (strip_trailing_zeros ds, n0 + (Z.of_nat (length ds) - k)) in
  let pick :=
    match inside s_lo, inside s_hi with
    | true, true =>
        (* both read back: the closer one, the even one on a tie *)
        match cmp_scaled (2 * s_lo + 1) p (2 * v) u_d with
        | Gt => Some s_lo
        | Lt => Some s_hi
        | Eq => Some (if Z.even s_lo then s_lo else s_hi)
        end
    | true, false => Some s_lo
    | false, true => Some s_hi
    | false, false => None
    end in
  match pick, fuel with
  | Some c, _ => finish c
  | None, S fuel' => shortest_from fuel' (k + 1) m e n0
  | None, O => finish s_lo
  end.

Definition shortest (m e : Z) : jsstring * Z :=
  shortest_from 20 1 m e (magnitude m e).

(** The layout of [Number::toString] for digits [ds] and point position
    [n]: positional for [-5 <= n <= 21], exponential otherwise. *)
Definition layout (ds : jsstring) (n : Z) : jsstring :=
  let k := Z.of_nat (length ds) in
  if (-5 <=? n) && (n <=? 21) then
    if k <=? n then ds ++ repeat 48%N (Z.to_nat (n - k))
    else if 0 <? n then firstn (Z.to_nat n) ds ++ lit "." ++ skipn (Z.to_nat n) ds
    else lit "0." ++ repeat 48%N (Z.to_nat (- n)) ++ ds
  else
    let ex := n - 1 in
    let tail := lit "e" ++ (if ex <? 0 then lit "-" else lit "+") ++ decimal (Z.abs ex) in
    match ds with
    | [d] => [d] ++ tail
    | d :: rest => [d] ++ lit "." ++ rest ++ tail
    | [] => tail
    end.

(** [Number::toString(x, 10)]: what a template literal or [toString()]
    prints for a number. *)
Definition toString (x : float) : jsstring :=
  match Prim2SF x with
  | S754_nan => lit "NaN"
  | S754_zero _ => lit "0"
  | S754_infinity s => (if s then lit "-" else []) ++ lit "Infinity"
  | S754_finite s m e =>
      let '(ds, n) := shortest (Zpos m) e in
      (if s then lit "-" else []) ++ layout ds n
  end.

(** [Number.prototype.toFixed(f)]: the integer [n] nearest to
    [|x| * 10^f] (the larger on a tie), printed with [f] decimals. *)
Definition toFixed (f : nat) (x : float) : jsstring :=
  match Prim2SF x with
  | S754_nan | S754_infinity _ => toString x
  | S754_zero _ => lit "0" ++ (match f with O => [] | _ => lit "." ++ repeat 48%N f end)
  | S754_finite s m e =>
      if PrimFloat.leb 1e21 (abs x) then toString x
      else
        let scale := 10 ^ Z.of_nat f in
        let n := if 0 <=? e then Zpos m * 2 ^ e * scale
                 else (2 * Zpos m * scale + 2 ^ (- e)) / (2 * 2 ^ (- e)) in
        let ds := padStart0 (S f) (decimal n) in
        let k := length ds in
        (if s then lit "-" else []) ++
        match f with
        | O => ds
        | _ => firstn (k - f) ds ++ lit "." ++ skipn (k - f) ds
        end
  end.

End Number.

(* ================================================================= *)
(** ** Dates *)

(** A [Date] object: its time value is an integer count of milliseconds
    since the epoch, or NaN. *)
Inductive Date : Type :=
| InvalidDate
| DateAt (t : Z).

(** The host's local time zone. [tz_offset t] is the local offset in
    milliseconds at the UTC time [t]; [tz_utc l] is the UTC time of the local
    clock reading [l]. *)
Record TimeZone : Type := {
  tz_offset : Z -> Z;
  tz_utc : Z -> Z
}.

(** A zone with one offset all year, such as UTC or [Etc/GMT+5]. *)
Definition fixed_zone (offset_ms : Z) : TimeZone :=
  {| tz_offset := fun _ => offset_ms; tz_utc := fun l => l - offset_ms |}.

Definition UTC : TimeZone := fixed_zone 0.

Module DateTime.

Definition msPerDay : Z := 86400000.

(** Days between the epoch and a day of the proleptic Gregorian calendar
    ([month] from 1 to 12). *)
Definition days_from_civil (year month day : Z) : Z :=
  let y := if month <=? 2 then year - 1 else year in
  let era := y / 400 in
  let yoe := y - era * 400 in
  let doy := (153 * (if 2 <? month then month - 3 else month + 9) + 2) / 5 + day - 1 in
  let doe := yoe * 365 + yoe / 4 - yoe / 100 + doy in
  era * 146097 + doe - 719468.

(** The calendar day of a day number: year, month (1 to 12), day. *)
Definition civil_from_days (z : Z) : Z * Z * Z :=
  let z := z + 719468 in
  let era := z / 146097 in
  let doe := z - era * 146097 in
  let yoe := (doe - doe / 1460 + doe / 36524 - doe / 146096) / 365 in
  let doy := doe - (365 * yoe + yoe / 4 - yoe / 100) in
  let mp := (5 * doy + 2) / 153 in
  let d := doy - (153 * mp + 2) / 5 + 1 in
  let m := if mp <? 10 then mp + 3 else mp - 9 in
  (yoe + era * 400 + (if m <=? 2 then 1 else 0), m, d).

(** [MakeDay(year, month - 1, day)] for [month] in 1..12: a day past the
    end of the month runs into the next one. *)
Definition MakeDay (year month day : Z) : Z :=
  days_from_civil year month 1 + (day - 1).

(** [TimeClip]: the time value a [Date] keeps of a number. *)
Definition TimeClip (x : float) : Date :=
  match Number.trunc x with
  | Some t => if Z.abs t <=? 8640000000000000 then DateAt t else InvalidDate
  | None => InvalidDate
  end.

(** [new Date(value)] for a number. *)
Definition of_number (x : float) : Date := TimeClip x.

Definition IsMonth (x : Z) : bool := (1 <=? x) && (x <=? 12).
Definition IsDay (x : Z) : bool := (1 <=? x) && (x <=? 31).

(** [new Date(s)] for the only strings [formatDate] builds: four digits, a
    dash, two digits, a dash, two digits. A month in 01..12 with a day in
    01..31 is the ISO date-only form, read as midnight UTC. V8 hands any
    other such string to its legacy parser, which reads the three numbers
    as year-month-day unless the first is in 1..31, when it reads them as
    month-day-year (a two-digit year) in local time; both readings then
    fail on a month outside 1..12 or a day outside 1..31. *)
Definition parse_dashed (tz : TimeZone) (s : jsstring) : Date :=
  match s with
  | [y1; y2; y3; y4; 45%N; m1; m2; 45%N; d1; d2] =>
      if forallb is_digit [y1; y2; y3; y4; m1; m2; d1; d2] then
        let Y := digits_val [y1; y2; y3; y4] in
        let M := digits_val [m1; m2] in
        let D := digits_val [d1; d2] in
        if IsMonth M && IsDay D then DateAt (MakeDay Y M D * msPerDay)
        else if IsDay Y then
          (* legacy reading: month = Y, day = M, year = D *)
          let year := if D <=? 49 then D + 2000 else D + 1900 in
          if IsMonth Y && IsDay M
          then DateAt (tz.(tz_utc) (MakeDay year Y M * msPerDay))
          else InvalidDate
        else InvalidDate
      else InvalidDate
  | _ => InvalidDate
  end.

(** [isNaN(date.getTime())]. *)
Definition isNaN_time (d : Date) : bool :=
  match d with
  | InvalidDate => true
  | DateAt _ => false
  end.

Definition month_name (m : Z) : jsstring :=
  lit (match m with
       | 1 => "January" | 2 => "February" | 3 => "March" | 4 => "April"
       | 5 => "May" | 6 => "June" | 7 => "July" | 8 => "August"
       | 9 => "September" | 10 => "October" | 11 => "November"
       | _ => "December"
       end).

(** The local calendar day of a time value. *)
Definition local_civil (tz : TimeZone) (t : Z) : Z * Z * Z :=
  civil_from_days ((t + tz.(tz_offset) t) / msPerDay).

(** [toLocaleDateString('en-US', {year: 'numeric', month: 'long',
    day: 'numeric'})] of a valid date: the pattern "MMMM d, y" on the local
    calendar day, the year printed as a year of its era. *)
Definition toLocaleDateString_en_US_long (tz : TimeZone) (d : Date) : jsstring :=
  match d with
  | InvalidDate => lit "Invalid Date"
  | DateAt t =>
      let '(y, m, dd) := local_civil tz t in
      month_name m ++ lit " " ++ decimal dd ++ lit ", "
        ++ decimal (if 0 <? y then y else 1 - y)
  end.

End DateTime.

(* ================================================================= *)
(** ** URI encoding *)

Module URI.

Definition between (lo hi c : N) : bool := ((lo <=? c) && (c <=? hi))%N.

(** Left alone by [encodeURIComponent]: letters, digits and [-_.!~*'()]. *)
Definition unreserved (c : N) : bool :=
  between 65 90 c || between 97 122 c || between 48 57 c
  || existsb (N.eqb c) [45; 95; 46; 33; 126; 42; 39; 40; 41]%N.

Definition hex_digit (n : N) : N :=
  (if n <? 10 then 48 + n else 55 + n)%N.

Definition pct (byte : N) : jsstring :=
  [37%N; hex_digit (byte / 16); hex_digit (byte mod 16)].

(** The UTF-8 octets of a code point, each percent-encoded. *)
Definition pct_utf8 (cp : N) : jsstring :=
  (if cp <? 128 then pct cp
   else if cp <? 2048 then pct (192 + cp / 64) ++ pct (128 + cp mod 64)
   else if cp <? 65536 then
     pct (224 + cp / 4096) ++ pct (128 + (cp / 64) mod 64) ++ pct (128 + cp mod 64)
   else
     pct (240 + cp / 262144) ++ pct (128 + (cp / 4096) mod 64)
       ++ pct (128 + (cp / 64) mod 64) ++ pct (128 + cp mod 64))%N.

(** [encodeURIComponent]; [None] is the [URIError] thrown at a surrogate
    that has no partner. *)
Fixpoint encodeURIComponent (s : jsstring) : option jsstring :=
  match s with
  | [] => Some []
  | c :: rest =>
      if unreserved c then option_map (cons c) (encodeURIComponent rest)
      else if between 56320 57343 c then None
      else if between 55296 56319 c then
        match rest with
        | d :: rest' =>
            if between 56320 57343 d then
              option_map (app (pct_utf8 ((c - 55296) * 1024 + (d - 56320) + 65536)%N))
                         (encodeURIComponent rest')
            else None
        | [] => None
        end
      else option_map (app (pct_utf8 c)) (encodeURIComponent rest)
  end.

End URI.

(* ================================================================= *)
(** ** Global regular-expression matching for the hashtag pattern *)

Module RegExp.

(** The class of [\w] and the code units U+00C0 to U+017F. *)
Definition is_word (c : N) : bool :=
  URI.between 65 90 c || URI.between 97 122 c || URI.between 48 57 c
  || N.eqb c 95 || URI.between 192 383 c.

Definition is_hash (c : N) : bool := N.eqb c 35.

(** The longest prefix of class characters. *)
Fixpoint word_prefix (s : jsstring) : jsstring :=
  match s with
  | c :: s' => if is_word c then c :: word_prefix s' else []
  | [] => []
  end.

(** [text.match(/#[\w\u00C0-\u017F]+/g)]: the matches, left to right.
    [inside] counts the characters still covered by the last match, where
    no new match may start. *)
Fixpoint match_all (inside : nat) (s : jsstring) : list jsstring :=
  match s with
  | [] => []
  | c :: s' =>
      match inside with
      | S k => match_all k s'
      | O =>
          if is_hash c then
            match word_prefix s' with
            | [] => match_all 0 s'
            | w => (c :: w) :: match_all (length w) s'
            end
          else match_all 0 s'
      end
  end.

(** [/^\d{8}$/.test(s)]. *)
Definition test_8_digits (s : jsstring) : bool :=
  (length s =? 8)%nat && forallb is_digit s.

End RegExp.

(* ================================================================= *)
(** ** The extractor's document and the response document *)

(** The properties [registerRoutes] reads off [videoInfo], by type. *)
Module Key.
Inductive str : Type :=
| title | description | uploader | creator | thumbnail | ext | vcodec
| acodec | uploader_id | uploader_url | channel_url | track | alt_title
| artist | upload_date | id | display_id.
Inductive num : Type :=
| view_count | like_count | duration | filesize | filesize_approx
| audio_filesize | width | height | fps | tbr | audio_channels | asr
| comment_count | repost_count | bookmark_count | timestamp.
Inductive flag : Type :=
| uploader_verified.

Definition str_eqb (a b : str) : bool :=
  match a, b with
  | title, title | description, description | uploader, uploader
  | creator, creator | thumbnail, thumbnail | ext, ext | vcodec, vcodec
  | acodec, acodec | uploader_id, uploader_id | uploader_url, uploader_url
  | channel_url, channel_url | track, track | alt_title, alt_title
  | artist, artist | upload_date, upload_date | id, id
  | display_id, display_id => true
  | _, _ => false
  end.

Definition num_eqb (a b : num) : bool :=
  match a, b with
  | view_count, view_count | like_count, like_count | duration, duration
  | filesize, filesize | filesize_approx, filesize_approx
  | audio_filesize, audio_filesize | width, width | height, height
  | fps, fps | tbr, tbr | audio_channels, audio_channels | asr, asr
  | comment_count, comment_count | repost_count, repost_count
  | bookmark_count, bookmark_count | timestamp, timestamp => true
  | _, _ => false
  end.
End Key.

(** [videoInfo]: the parsed extractor output, every property optional. *)
Record VideoInfo : Type := {
  str : Key.str -> opt jsstring;
  num : Key.num -> opt float;
  flag : Key.flag -> opt bool
}.

(** The document [{}]: nothing reported. *)
Definition emptyInfo : VideoInfo :=
  {| str := fun _ => Undefined; num := fun _ => Undefined; flag := fun _ => Undefined |}.

Definition with_str (k : Key.str) (v : opt jsstring) (info : VideoInfo) : VideoInfo :=
  {| str := fun k' => if Key.str_eqb k k' then v else info.(str) k';
     num := info.(num); flag := info.(flag) |}.

Definition with_num (k : Key.num) (v : opt float) (info : VideoInfo) : VideoInfo :=
  {| str := info.(str);
     num := fun k' => if Key.num_eqb k k' then v else info.(num) k';
     flag := info.(flag) |}.

(** A JavaScript value as it sits in an object literal handed to
    [res.json]. *)
#[local] Set Warnings "-register-all".
Inductive value : Type :=
| VUndefined
| VNull
| VBool (b : bool)
| VNum (x : float)
| VStr (s : jsstring)
| VArr (items : list value)
| VObj (props : list (string * value)).

Definition of_opt {A} (inj : A -> value) (a : opt A) : value :=
  match a with
  | Undefined => VUndefined
  | Null => VNull
  | Val x => inj x
  end.

(** [v.k]: the property [k] of an object, [undefined] when there is none. *)
Fixpoint lookup (k : string) (props : list (string * value)) : value :=
  match props with
  | [] => VUndefined
  | (k', v) :: rest => if String.eqb k k' then v else lookup k rest
  end.

Definition prop (k : string) (v : value) : value :=
  match v with
  | VObj props => lookup k props
  | _ => VUndefined
  end.

(** Neither [undefined] nor [null]. *)
Definition defined (v : value) : bool :=
  match v with
  | VUndefined | VNull => false
  | _ => true
  end.

(** The paths, from the root of a document, of the properties and array
    items that hold [undefined] or [null]. *)
Fixpoint missing_paths (v : value) : list (list string) :=
  match v with
  | VUndefined | VNull => [[]]
  | VObj props =>
      (fix go (ps : list (string * value)) : list (list string) :=
         match ps with
         | [] => []
         | (k, x) :: rest => map (cons k) (missing_paths x) ++ go rest
         end) props
  | VArr items =>
      (fix go (xs : list value) : list (list string) :=
         match xs with
         | [] => []
         | x :: rest => map (cons "[]"%string) (missing_paths x) ++ go rest
         end) items
  | _ => []
  end.

(** The property at the end of a path of property names. *)
Definition at_path (p : list string) (v : value) : value :=
  fold_left (fun x k => prop k x) p v.

(** The document [res.json] sends for a body: what [JSON.stringify] writes,
    read as JSON. A number that is not finite is written [null], negative
    zero is written [0]; a property that holds [undefined] is left out; an
    array item that holds [undefined] is written [null]. *)
Fixpoint JSON_document (v : value) : value :=
  match v with
  | VNum x =>
      if is_finite x then VNum (if PrimFloat.eqb x 0 then 0 else x) else VNull
  | VObj props =>
      VObj ((fix go (ps : list (string * value)) : list (string * value) :=
               match ps with
               | [] => []
               | (k, x) :: rest =>
                   match x with
                   | VUndefined => go rest
                   | _ => (k, JSON_document x) :: go rest
                   end
               end) props)
  | VArr items =>
      VArr ((fix go (xs : list value) : list value :=
               match xs with
               | [] => []
               | x :: rest =>
                   match x with
                   | VUndefined => VNull :: go rest
                   | _ => JSON_document x :: go rest
                   end
               end) items)
  | other => other
  end.

(** The host: what the JavaScript runtime takes from the machine it runs
    on. *)
Record Host : Type := {
  zone : TimeZone;
  (** [String.prototype.toUpperCase], which follows the Unicode tables *)
  toUpperCase : jsstring -> jsstring;
  (** [Number.prototype.toLocaleString()] in the default locale *)
  toLocaleString : float -> jsstring
}.

(* ================================================================= *)
(** ** The metadata handler's closures and [responseData] *)

Section Metadata.

Variable host : Host.

(** Template-literal conversion of the result of [x || default]. *)
Definition ToString_num (a : opt float) : jsstring :=
  match a with
  | Undefined => lit "undefined"
  | Null => lit "null"
  | Val x => Number.toString x
  end.

(** [formatDuration]. *)
Definition formatDuration (seconds : opt float) : jsstring :=
  if negb (truthy_opt seconds) then lit "00:00"
  else
    let mins := Number.floor (ToNumber seconds / 60) in
    let secs := Number.floor (Number.rem (ToNumber seconds) 60) in
    Number.toString mins ++ lit ":" ++ padStart0 2 (Number.toString secs).

(** [formatNumber]. *)
Definition formatNumber (n : opt float) : jsstring :=
  if negb (truthy_opt n) then lit "0"
  else host.(toLocaleString) (ToNumber n).

(** [formatFileSize]. *)
Definition formatFileSize (bytes : opt float) : jsstring :=
  if negb (truthy_opt bytes) then lit "N/A"
  else
    let mb := (ToNumber bytes / 1024 / 1024)%float in
    Number.toFixed 2 mb ++ lit " MB".

(** [extractHashtags]. *)
Definition extractHashtags (text : opt jsstring) : list jsstring :=
  match text with
  | Val t =>
      if negb (truthy t) then []
      else
        let matches := RegExp.match_all 0 t in
        (* [null] when nothing matched, mapped to [[]] either way *)
        map (skipn 1) matches
  | _ => []
  end.

(** [formatDate]. *)
Definition formatDate (uploadDate : opt jsstring) (timestamp : opt float) : jsstring :=
  let date : option Date := None in
  let date :=
    match uploadDate with
    | Val s =>
        if truthy s && RegExp.test_8_digits s then
          let year := substring 0 4 s in
          let month := substring 4 6 s in
          let day := substring 6 8 s in
          Some (DateTime.parse_dashed host.(zone)
                  (year ++ lit "-" ++ month ++ lit "-" ++ day))
        else date
    | _ => date
    end in
  let date :=
    match date with
    | None =>
        if truthy_opt timestamp
        then Some (DateTime.of_number (ToNumber timestamp * 1000))
        else None
    | Some _ => date
    end in
  match date with
  | None => lit "Unknown"
  | Some d =>
      if DateTime.isNaN_time d then lit "Unknown"
      else DateTime.toLocaleDateString_en_US_long host.(zone) d
  end.

Definition VS (s : string) : opt jsstring := Val (lit s).

Variable url : jsstring.
Variable videoInfo : VideoInfo.

Local Notation "'s.' k" := (videoInfo.(str) k) (at level 9, k at level 9).
Local Notation "'n.' k" := (videoInfo.(num) k) (at level 9, k at level 9).
Local Open Scope js_scope.
Local Open Scope string_scope.

Definition metadata : value :=
  VObj [
    ("duration", VStr (formatDuration n.Key.duration));
    ("videoSize", VStr (formatFileSize (n.Key.filesize ||| n.Key.filesize_approx)));
    ("audioSize", VStr (formatFileSize
       (n.Key.audio_filesize
        ||| Val (ToNumber n.Key.filesize_approx * 0x1.999999999999ap-4)%float)));
    ("resolution", VStr (ToString_num (n.Key.width ||| Val 1080%float) ++ lit "x"
                          ++ ToString_num (n.Key.height ||| Val 1920%float))%list);
    ("format", of_opt VStr
       ((match s.Key.ext with
         | Val e => Val (host.(toUpperCase) e)
         | _ => Undefined
         end) ||| VS "MP4"));
    ("codec", of_opt VStr (s.Key.vcodec ||| VS "H.264"));
    ("fps", of_opt VNum (n.Key.fps ||| Val 30%float));
    ("bitrate", VStr (if truthy_opt n.Key.tbr
                      then (Number.toString (Number.round (ToNumber n.Key.tbr))
                              ++ lit " kbps")%list
                      else lit "N/A"));
    ("width", of_opt VNum (n.Key.width ||| Val 1080%float));
    ("height", of_opt VNum (n.Key.height ||| Val 1920%float));
    ("audioCodec", of_opt VStr (s.Key.acodec ||| VS "AAC"));
    ("audioChannels", of_opt VNum (n.Key.audio_channels ||| Val 2%float));
    ("audioSampleRate",
       VStr (if truthy_opt n.Key.asr
             then (Number.toFixed 1 (ToNumber n.Key.asr / 1000) ++ lit " kHz")%list
             else lit "44.1 kHz"))
  ].

Definition creator : value :=
  VObj [
    ("username", of_opt VStr (s.Key.uploader_id ||| s.Key.uploader ||| VS "Unknown"));
    ("nickname", of_opt VStr (s.Key.uploader ||| s.Key.creator ||| VS "TikTok User"));
    ("avatar", of_opt VStr (s.Key.uploader_url ||| s.Key.channel_url));
    ("verified", of_opt VBool (videoInfo.(flag) Key.uploader_verified ||| Val false))
  ].

Definition stats : value :=
  VObj [
    ("views", of_opt VNum (n.Key.view_count ||| Val 0%float));
    ("likes", of_opt VNum (n.Key.like_count ||| Val 0%float));
    ("comments", of_opt VNum (n.Key.comment_count ||| Val 0%float));
    ("shares", of_opt VNum (n.Key.repost_count ||| Val 0%float));
    ("favorites", of_opt VNum (n.Key.bookmark_count ||| Val 0%float))
  ].

Definition audio : value :=
  VObj [
    ("title", of_opt VStr (s.Key.track ||| s.Key.alt_title ||| VS "Original Sound"));
    ("author", of_opt VStr (s.Key.artist ||| s.Key.uploader ||| VS "Unknown Artist"))
  ].

(** The object literal [responseData], given [encodeURIComponent(url)]. *)
Definition responseData_with (encoded : jsstring) : value :=
  VObj [
    ("videoUrl", VStr (lit "/api/tiktok/download/video?url=" ++ encoded)%list);
    ("audioUrl", VStr (lit "/api/tiktok/download/audio?url=" ++ encoded)%list);
    ("thumbnail", of_opt VStr
       (s.Key.thumbnail ||| VS "https://picsum.photos/seed/tiktok/1280/720"));
    ("title", of_opt VStr (s.Key.title ||| s.Key.description ||| VS "TikTok Video"));
    ("description", of_opt VStr
       (s.Key.description ||| s.Key.title ||| VS "No description available"));
    ("metadata", metadata);
    ("creator", creator);
    ("stats", stats);
    ("audio", audio);
    ("hashtags", VArr (map VStr
       (extractHashtags (s.Key.description ||| s.Key.title ||| Val []))));
    ("uploadDate", VStr (formatDate s.Key.upload_date n.Key.timestamp));
    ("videoId", of_opt VStr (s.Key.id ||| s.Key.display_id ||| VS "unknown"))
  ].

(** [responseData]; [None] when [encodeURIComponent] throws. *)
Definition responseData : option value :=
  option_map responseData_with (URI.encodeURIComponent url).

End Metadata.

(* ================================================================= *)
(** ** Paths *)

(** [path.join] and [path.normalize] of Node's POSIX flavour. *)
Module Path.

Definition is_sep (c : N) : bool := N.eqb c 47.

(** The segments between slashes (one more than there are slashes). *)
Fixpoint split (s : jsstring) : list jsstring :=
  match s with
  | [] => [[]]
  | c :: s' =>
      if is_sep c then [] :: split s'
      else match split s' with
           | seg :: segs => (c :: seg) :: segs
           | [] => [[c]]
           end
  end.

Definition is_dot (seg : jsstring) : bool := str_eqb seg (lit ".").
Definition is_dotdot (seg : jsstring) : bool := str_eqb seg (lit "..").

(** [normalizeString]: drop empty and [.] segments, let [..] take back the
    segment before it. [stack] holds the kept segments, last one first. *)
Fixpoint resolve (allowAboveRoot : bool) (stack segs : list jsstring) : list jsstring :=
  match segs with
  | [] => rev stack
  | seg :: rest =>
      match seg with
      | [] => resolve allowAboveRoot stack rest
      | _ =>
          if is_dot seg then resolve allowAboveRoot stack rest
          else if is_dotdot seg then
            match stack with
            | top :: below =>
                if is_dotdot top
                then resolve allowAboveRoot
                       (if allowAboveRoot then seg :: stack else stack) rest
                else resolve allowAboveRoot below rest
            | [] =>
                resolve allowAboveRoot (if allowAboveRoot then [seg] else []) rest
            end
          else resolve allowAboveRoot (seg :: stack) rest
      end
  end.

Fixpoint join_segments (segs : list jsstring) : jsstring :=
  match segs with
  | [] => []
  | [seg] => seg
  | seg :: rest => seg ++ 47%N :: join_segments rest
  end.

Definition normalize (p : jsstring) : jsstring :=
  match p with
  | [] => lit "."
  | c :: _ =>
      let isAbsolute := is_sep c in
      let trailingSeparator := is_sep (last p 0%N) in
      let body := join_segments (resolve (negb isAbsolute) [] (split p)) in
      match body with
      | [] => if isAbsolute then lit "/"
              else if trailingSeparator then lit "./" else lit "."
      | _ =>
          let body := if trailingSeparator then body ++ lit "/" else body in
          if isAbsolute then 47%N :: body else body
      end
  end.

(** No slash in it. *)
Definition no_sep (s : jsstring) : bool := forallb (fun c => negb (is_sep c)) s.

(** A segment [normalize] keeps as it is. *)
Definition plain (seg : jsstring) : Prop :=
  seg <> [] /\ is_dot seg = false /\ is_dotdot seg = false.

(** [path.join(a, b)]. *)
Definition join (a b : jsstring) : jsstring :=
  match a, b with
  | [], [] => lit "."
  | [], _ => normalize b
  | _, [] => normalize a
  | _, _ => normalize (a ++ 47%N :: b)
  end.

End Path.

(* ================================================================= *)
(** ** Effects: what a handler does to the outside *)

(** What [validateTikTokUrl] reports: the parsed string, or the issues of a
    [ZodError], which are never empty. *)
Record ZodIssue : Type := { message : jsstring }.

Inductive ZodResult : Type :=
| ZodOk (data : jsstring)
| ZodFail (first : ZodIssue) (rest : list ZodIssue).

(** What a [catch] clause may receive. *)
Inductive exn : Type :=
| ZodError (first : ZodIssue) (rest : list ZodIssue)
| ExecError          (* [exec] rejected: spawn failure or non-zero exit *)
| SyntaxError        (* [JSON.parse] *)
| TypeError          (* a property read off [null] *)
| URIError           (* [encodeURIComponent] *)
| MkdirError
| SpawnError         (* [spawn] threw *)
| Error (msg : jsstring)
| InvalidCharError (header : jsstring)
                     (* [res.setHeader]: a character no header value may hold *)
| ChildError.        (* the child's [error] event: it could not be started *)

(** How a spawned child ends: its [close] event carries an exit code or
    [null] (killed by a signal), or never comes. *)
Inductive ChildEnd : Type :=
| Closed (code : option Z)
| NeverCloses.

(** What becomes of [spawn]: it throws at once; or it returns a child that
    runs; or it returns a child that cannot be started (no [yt-dlp] on the
    path, no permission to run it), which is reported by the child's [error]
    event and not by an exception. *)
Inductive SpawnOutcome : Type :=
| SpawnThrows
| ChildRuns (stderr : list jsstring) (ending : ChildEnd)
| ChildFails.

(** The calls a handler makes on the response, the console, the file system
    and child processes, in order. A run ends with the handler's last call:
    what a stream does once [pipe] has returned is not part of it. *)
Inductive event : Type :=
| Exec (command : jsstring)
| Spawn (command : jsstring) (args : list jsstring)
| Mkdir (path : jsstring)
| ConsoleLog (label : jsstring) (what : value)
| ConsoleError (label : jsstring) (what : option exn)
| ResStatus (code : Z)
| ResJson (body : value)
| ResSetHeader (name content : jsstring)
| CreateReadStream (path : jsstring)
| PipeToResponse (path : jsstring).

(** The answers of the outside world. *)
Record World : Type := {
  (** [exec(command)]: the child's standard output, or a rejection *)
  exec_stdout : jsstring -> option jsstring;
  (** [JSON.parse(stdout)]: a [SyntaxError] ([None]), the document [null]
      ([Some None]), or a document read through its properties *)
  JSON_parse : jsstring -> option (option VideoInfo);
  process_cwd : jsstring;
  (** whether [mkdir(path, {recursive: true})] resolves *)
  mkdir_ok : jsstring -> bool;
  Date_now : Z;
  spawn_outcome : jsstring -> list jsstring -> SpawnOutcome
}.

(** A computation: the events it emitted, and how it ended. It returned;
    it threw, which a [catch] clause around it sees; it waits for something
    that never comes; or an exception was thrown where no [catch] clause
    reaches (an emitter with no [error] listener), which ends the server
    process. *)
Inductive outcome (A : Type) : Type :=
| Returned (a : A)
| Threw (e : exn)
| Pending
| Crashed (e : exn).
Arguments Returned {A} a.
Arguments Threw {A} e.
Arguments Pending {A}.
Arguments Crashed {A} e.

Definition M (A : Type) : Type := list event * outcome A.

Definition ret {A} (a : A) : M A := ([], Returned a).

Definition bind {A B} (m : M A) (f : A -> M B) : M B :=
  match m with
  | (t, Returned a) => let '(t', o) := f a in (t ++ t', o)
  | (t, Threw e) => (t, Threw e)
  | (t, Pending) => (t, Pending)
  | (t, Crashed e) => (t, Crashed e)
  end.

Definition emit (ev : event) : M unit := ([ev], Returned tt).
Definition throw {A} (e : exn) : M A := ([], Threw e).
Definition never {A} : M A := ([], Pending).
Definition crash {A} (e : exn) : M A := ([], Crashed e).

(** [try { body } catch (error) { handler }]. *)
Definition try_catch {A} (body : M A) (handler : exn -> M A) : M A :=
  match body with
  | (t, Threw e) => let '(t', o) := handler e in (t ++ t', o)
  | other => other
  end.

Notation "x <- m ;; k" := (bind m (fun x => k))
  (at level 61, m at next level, right associativity).
Notation "m ;; k" := (bind m (fun _ => k))
  (at level 61, right associativity).

Definition trace {A} (m : M A) : list event := fst m.

Definition message_body (s : string) : value :=
  VObj [("message"%string, VStr (lit s))].

(** The characters Node lets into a header value ([checkInvalidHeaderChar]):
    the tab, and the units from 0x20 to 0x7e and from 0x80 to 0xff. *)
Definition header_char (c : N) : bool :=
  N.eqb c 9 || URI.between 32 126 c || URI.between 128 255 c.

(** [res.setHeader(name, content)] for a valid header name: the header is
    set, unless the value holds a character no header may hold, when
    [setHeader] throws and sets nothing. *)
Definition res_setHeader (name content : jsstring) : M unit :=
  if forallb header_char content then emit (ResSetHeader name content)
  else throw (InvalidCharError name).

(* ================================================================= *)
(** ** The two routes *)

Section Routes.

Variable host : Host.
Variable world : World.

(** Stands for [validateTikTokUrl] of [client/src/lib/validators], which
    is not part of [server/]: any schema for the [url] property. *)
Variable validateTikTokUrl : value -> ZodResult.

(** The name zod gives the type of a value that is not an object. *)
Definition zod_type_name (v : value) : jsstring :=
  lit (match v with
       | VUndefined => "undefined"
       | VNull => "null"
       | VBool _ => "boolean"
       | VNum x => if is_nan x then "nan" else "number"
       | VStr _ => "string"
       | VArr _ => "array"
       | VObj _ => "object"
       end).

(** [tiktokInfoSchema.parse(req.body)] for
    [z.object({ url: validateTikTokUrl })]. *)
Definition tiktokInfoSchema_parse (body : value) : M jsstring :=
  match body with
  | VObj _ =>
      match validateTikTokUrl (prop "url" body) with
      | ZodOk url => ret url
      | ZodFail first rest => throw (ZodError first rest)
      end
  | VUndefined => throw (ZodError {| message := lit "Required" |} [])
  | _ =>
      throw (ZodError {| message := lit "Expected object, received "
                                      ++ zod_type_name body |} [])
  end.

Definition execPromise (command : jsstring) : M jsstring :=
  emit (Exec command) ;;
  match world.(exec_stdout) command with
  | Some stdout => ret stdout
  | None => throw ExecError
  end.

Definition parse_videoInfo (stdout : jsstring) : M (option VideoInfo) :=
  match world.(JSON_parse) stdout with
  | Some doc => ret doc
  | None => throw SyntaxError
  end.

(** The summary logged before the response is built; reading a property
    of [null] throws. *)
Definition log_summary (doc : option VideoInfo) : M VideoInfo :=
  match doc with
  | None => throw TypeError
  | Some videoInfo =>
      emit (ConsoleLog (lit "Video info extracted:")
              (VObj [("title"%string, of_opt VStr (videoInfo.(str) Key.title));
                     ("creator"%string,
                      of_opt VStr (js_or (videoInfo.(str) Key.uploader)
                                         (videoInfo.(str) Key.creator)));
                     ("views"%string, of_opt VNum (videoInfo.(num) Key.view_count));
                     ("likes"%string, of_opt VNum (videoInfo.(num) Key.like_count))])) ;;
      ret videoInfo
  end.

(** [app.post("/api/tiktok/info", ...)]. *)
Definition infoHandler (body : value) : M unit :=
  try_catch
    (url <- tiktokInfoSchema_parse body ;;
     stdout <- execPromise (lit "yt-dlp --dump-json " ++ dquote ++ url ++ dquote) ;;
     doc <- parse_videoInfo stdout ;;
     videoInfo <- log_summary doc ;;
     match responseData host url videoInfo with
     | None => throw URIError
     | Some data => emit (ResJson data)
     end)
    (fun error =>
       match error with
       | ZodError first _ =>
           emit (ResStatus 400) ;;
           emit (ResJson (VObj [("message"%string, VStr first.(message))]))
       | _ =>
           emit (ConsoleError (lit "Error getting video info:") (Some error)) ;;
           emit (ResStatus 500) ;;
           emit (ResJson (message_body "Failed to process TikTok URL"))
       end).

(** [`${n}`] for the integer [Date.now()] returns. *)
Definition Z_toString (z : Z) : jsstring :=
  if z <? 0 then lit "-" ++ decimal (- z) else decimal z.

Definition is_video (type : jsstring) : bool := str_eqb type (lit "video").

Definition video_options : list jsstring :=
  [lit "--format"; lit "best[ext=mp4]"; lit "--force-overwrites"].
Definition audio_options : list jsstring :=
  [lit "--extract-audio"; lit "--audio-format"; lit "mp3"; lit "--force-overwrites"].

Definition tempPath : jsstring := Path.join world.(process_cwd) (lit "temp").

(** [`tiktok-${type}-${timestamp}.${ext}`]. *)
Definition file_name (type : jsstring) (timestamp : Z) (extension : jsstring) : jsstring :=
  lit "tiktok-" ++ type ++ lit "-" ++ Z_toString timestamp ++ lit "." ++ extension.

Definition outputFile (type : jsstring) : jsstring :=
  Path.join tempPath
    (file_name type world.(Date_now) (if is_video type then lit "mp4" else lit "mp3")).

Definition mkdir_recursive (path : jsstring) : M unit :=
  emit (Mkdir path) ;;
  if world.(mkdir_ok) path then ret tt else throw MkdirError.

(** [console.error(`yt-dlp error: ${data}`)] for each chunk the child
    writes to its standard error. *)
Definition stderr_events (stderr : list jsstring) : list event :=
  map (fun data => ConsoleError (lit "yt-dlp error: " ++ data) None) stderr.

(** [spawn] and the promise that waits for the child's [close] event,
    logging its standard error as it comes. The handler listens to [close]
    and to the [data] of the standard error, not to the child's [error]
    event: when the child cannot be started the emitter throws the error
    itself, outside the handler's [try], and the server process ends. *)
Definition spawn_and_wait (command : jsstring) (args : list jsstring) : M unit :=
  emit (Spawn command args) ;;
  match world.(spawn_outcome) command args with
  | SpawnThrows => throw SpawnError
  | ChildFails => crash ChildError
  | ChildRuns stderr ending =>
      (stderr_events stderr, Returned tt) ;;
      match ending with
      | Closed (Some 0) => ret tt
      | Closed (Some code) =>
          throw (Error (lit "yt-dlp exited with code " ++ Z_toString code))
      | Closed None => throw (Error (lit "yt-dlp exited with code null"))
      | NeverCloses => never
      end
  end.

(** [app.get("/api/tiktok/download/:type", ...)]: [type] is the route
    parameter, [url] the query parameter [req.query.url as string]. *)
Definition downloadHandler (type : jsstring) (url : opt jsstring) : M unit :=
  try_catch
    (if negb (truthy_opt url) then
       emit (ResStatus 400) ;;
       emit (ResJson (message_body "URL is required"))
     else
       mkdir_recursive tempPath ;;
       let timestamp := world.(Date_now) in
       let options := if is_video type then video_options else audio_options in
       spawn_and_wait (lit "yt-dlp")
         (options ++ [lit "-o"; outputFile type; ToString_str url]) ;;
       let extension := if is_video type then lit "mp4" else lit "mp3" in
       res_setHeader (lit "Content-Type")
         (if is_video type then lit "video/mp4" else lit "audio/mpeg") ;;
       res_setHeader (lit "Content-Disposition")
         (lit "attachment; filename=" ++ dquote
            ++ file_name type timestamp extension ++ dquote) ;;
       emit (CreateReadStream (outputFile type)) ;;
       emit (PipeToResponse (outputFile type)))
    (fun error =>
       emit (ConsoleError (lit "Download error:") (Some error)) ;;
       emit (ResStatus 500) ;;
       emit (ResJson (message_body "Failed to download content"))).

End Routes.

(* ================================================================= *)
(** ** Hosts, validators and worlds used in the examples *)

(** Upper-casing of the letters [a] to [z], every other unit kept. *)
Definition ascii_toUpperCase (s : jsstring) : jsstring :=
  map (fun c => if URI.between 97 122 c then (c - 32)%N else c) s.

(** A host on UTC. *)
Definition utc_host : Host :=
  {| zone := UTC;
     toUpperCase := ascii_toUpperCase;
     toLocaleString := Number.toString |}.

(** A host five hours behind UTC all year ([TZ=Etc/GMT+5]). *)
Definition west_host : Host :=
  {| zone := fixed_zone (-5 * 3600000);
     toUpperCase := ascii_toUpperCase;
     toLocaleString := Number.toString |}.

Definition sample_url : jsstring := lit "https://www.tiktok.com/@user/video/1".

(** Accepts the strings that start with [https://www.tiktok.com/]; one
    possible [validateTikTokUrl]. *)
Definition sample_validator (v : value) : ZodResult :=
  match v with
  | VStr s =>
      if str_eqb (firstn 23 s) (lit "https://www.tiktok.com/") then ZodOk s
      else ZodFail {| message := lit "Please enter a valid TikTok URL" |} []
  | _ => ZodFail {| message := lit "Required" |} []
  end.

(** A world where the extractor's child process ends as [child] says. *)
Definition sample_world (child : SpawnOutcome) : World :=
  {| exec_stdout := fun _ => None;
     JSON_parse := fun _ => None;
     process_cwd := lit "/home/runner/workspace";
     mkdir_ok := fun _ => true;
     Date_now := 1700000000000;
     spawn_outcome := fun _ _ => child |}.

(** A world where the extractor prints one JSON document, read as
    [videoInfo]. *)
Definition metadata_world (videoInfo : VideoInfo) : World :=
  {| exec_stdout := fun _ => Some (lit "{}");
     JSON_parse := fun _ => Some (Some videoInfo);
     process_cwd := lit "/home/runner/workspace";
     mkdir_ok := fun _ => true;
     Date_now := 1700000000000;
     spawn_outcome := fun _ _ => SpawnThrows |}.

(* ================================================================= *)
(** ** Notions the properties are stated with *)

(** Not reported: the property is missing or [null]. *)
Definition absent {A} (a : opt A) : bool :=
  match a with
  | Val _ => false
  | _ => true
  end.

(** The engagement counters and the names [stats] gives them. *)
Definition counters : list (Key.num * string) :=
  [(Key.view_count, "views"); (Key.like_count, "likes");
   (Key.comment_count, "comments"); (Key.repost_count, "shares");
   (Key.bookmark_count, "favorites")]%string.

(** A dimension as [resolution] prints it: the reported one when it is
    truthy, else its default. *)
Definition dimension (a : opt float) (default : float) : float :=
  match a with
  | Val x => if truthy x then x else default
  | _ => default
  end.



(** The string [formatDate] hands to [new Date] for an 8-digit
    [upload_date]. *)
Definition dashed (s : jsstring) : jsstring :=
  substring 0 4 s ++ lit "-" ++ substring 4 6 s ++ lit "-" ++ substring 6 8 s.

(** [upload_date] is missing, [null], or not exactly eight digits. *)
Definition not_8_digits (u : opt jsstring) : bool :=
  match u with
  | Val s => negb (RegExp.test_8_digits s)
  | _ => true
  end.

Definition starts_with_word (s : jsstring) : bool :=
  match s with
  | c :: _ => RegExp.is_word c
  | [] => false
  end.

(** The hashtags of a text, as the specification words them: reading left
    to right, each [#] that is followed by a class character opens a tag,
    the tag is the longest run of class characters after it, and reading
    goes on behind the tag; every other character is passed over. *)
Inductive Hashtags : jsstring -> list jsstring -> Prop :=
| Hashtags_end : Hashtags [] []
| Hashtags_skip c rest tags :
    RegExp.is_hash c && starts_with_word rest = false ->
    Hashtags rest tags ->
    Hashtags (c :: rest) tags
| Hashtags_tag c w rest tags :
    RegExp.is_hash c = true ->
    w <> [] -> forallb RegExp.is_word w = true ->
    starts_with_word rest = false ->
    Hashtags rest tags ->
    Hashtags (c :: w ++ rest) (w :: tags).

(** The fields of the response document, by path. *)
Definition response_fields : list (list string) :=
  [["videoUrl"]; ["audioUrl"]; ["thumbnail"]; ["title"]; ["description"];
   ["metadata"];
   ["metadata"; "duration"]; ["metadata"; "videoSize"]; ["metadata"; "audioSize"];
   ["metadata"; "resolution"]; ["metadata"; "format"]; ["metadata"; "codec"];
   ["metadata"; "fps"]; ["metadata"; "bitrate"]; ["metadata"; "width"];
   ["metadata"; "height"]; ["metadata"; "audioCodec"];
   ["metadata"; "audioChannels"]; ["metadata"; "audioSampleRate"];
   ["creator"];
   ["creator"; "username"]; ["creator"; "nickname"]; ["creator"; "avatar"];
   ["creator"; "verified"];
   ["stats"];
   ["stats"; "views"]; ["stats"; "likes"]; ["stats"; "comments"];
   ["stats"; "shares"]; ["stats"; "favorites"];
   ["audio"]; ["audio"; "title"]; ["audio"; "author"];
   ["hashtags"]; ["uploadDate"]; ["videoId"]]%string.

(** The fields that carry a number of the extractor's, each with the
    property it is read from. *)
Definition numeric_fields : list (list string * Key.num) :=
  [(["metadata"; "fps"], Key.fps); (["metadata"; "width"], Key.width);
   (["metadata"; "height"], Key.height);
   (["metadata"; "audioChannels"], Key.audio_channels);
   (["stats"; "views"], Key.view_count); (["stats"; "likes"], Key.like_count);
   (["stats"; "comments"], Key.comment_count);
   (["stats"; "shares"], Key.repost_count);
   (["stats"; "favorites"], Key.bookmark_count)]%string.

(** Reported as [Infinity] or [-Infinity]: what [JSON.parse] makes of a
    numeral beyond the range of a double, such as [1e400]. *)
Definition infinite (a : opt float) : bool :=
  match a with
  | Val x => is_infinity x
  | _ => false
  end.

(** A string that may go into a header value: every unit is a tab, or
    lies between U+0020 and U+007E or between U+0080 and U+00FF. A control
    character, U+007F or a unit above U+00FF may not. *)
Definition fits_header (s : jsstring) : Prop :=
  Forall (fun c => c = 9 \/ 32 <= c <= 126 \/ 128 <= c <= 255)%N s.

(** Calls that start an external process. *)
Definition is_external_call (ev : event) : bool :=
  match ev with
  | Exec _ | Spawn _ _ => true
  | _ => false
  end.

(** Calls that send the produced file: its headers and its stream. *)
Definition is_file_response (ev : event) : bool :=
  match ev with
  | ResSetHeader _ _ | CreateReadStream _ | PipeToResponse _ => true
  | _ => false
  end.

(** What the download handler's [catch] clause does. *)
Definition failure_events (e : exn) : list event :=
  [ConsoleError (lit "Download error:") (Some e); ResStatus 500;
   ResJson (VObj [("message"%string, VStr (lit "Failed to download content"))])].

(** The message of the error raised at a [close] event whose code is not 0. *)
Definition exit_message (code : option Z) : jsstring :=
  lit "yt-dlp exited with code "
    ++ match code with Some c => Z_toString c | None => lit "null" end.

(** What the download handler does after exit code 0, when the route
    parameter fits a header value. *)
Definition success_events (world : World) (type : jsstring) : list event :=
  let extension := if is_video type then lit "mp4" else lit "mp3" in
  [ResSetHeader (lit "Content-Type")
     (if is_video type then lit "video/mp4" else lit "audio/mpeg");
   ResSetHeader (lit "Content-Disposition")
     (lit "attachment; filename=" ++ dquote
        ++ file_name type world.(Date_now) extension ++ dquote);
   CreateReadStream (outputFile world type);
   PipeToResponse (outputFile world type)].

(** What the download handler does after exit code 0 when the route
    parameter does not fit a header value: the [Content-Type] is set, the
    [Content-Disposition] is refused, and the [catch] clause answers. *)
Definition refused_header_events (type : jsstring) : list event :=
  [ResSetHeader (lit "Content-Type")
     (if is_video type then lit "video/mp4" else lit "audio/mpeg");
   ConsoleError (lit "Download error:")
     (Some (InvalidCharError (lit "Content-Disposition")));
   ResStatus 500;
   ResJson (VObj [("message"%string, VStr (lit "Failed to download content"))])].

(** The arguments the extractor is spawned with. *)
Definition spawn_args (world : World) (type : jsstring) (url : opt jsstring) : list jsstring :=
  (if is_video type
   then [lit "--format"; lit "best[ext=mp4]"; lit "--force-overwrites"]
   else [lit "--extract-audio"; lit "--audio-format"; lit "mp3"; lit "--force-overwrites"])
    ++ [lit "-o"; outputFile world type; ToString_str url].

(* ================================================================= *)
(** ** Notions the further properties are stated with *)

(** The status a response goes out with: the last one set, 200 when none
    was. *)
Definition status_of (t : list event) : Z :=
  fold_left (fun s ev => match ev with ResStatus c => c | _ => s end) t 200.

(** The bodies handed to [res.json], in order. *)
Definition json_bodies (t : list event) : list value :=
  flat_map (fun ev => match ev with ResJson b => [b] | _ => [] end) t.

(** The calls that start an external process, in order. *)
Definition external_calls (t : list event) : list event := filter is_external_call t.

(** What [z.object({ url: validateTikTokUrl })] makes of a body. *)
Definition schema_result (validate : value -> ZodResult) (body : value) : ZodResult :=
  match body with
  | VObj _ => validate (prop "url" body)
  | VUndefined => ZodFail {| message := lit "Required" |} []
  | _ => ZodFail {| message := lit "Expected object, received " ++ zod_type_name body |} []
  end.

(** What the metadata handler's [catch] clause does with an error that is
    not a [ZodError]. *)
Definition info_failure_events (e : exn) : list event :=
  [ConsoleError (lit "Error getting video info:") (Some e); ResStatus 500;
   ResJson (VObj [("message"%string, VStr (lit "Failed to process TikTok URL"))])].

(** The command line the metadata handler hands to [exec]. *)
Definition dump_command (url : jsstring) : jsstring :=
  lit "yt-dlp --dump-json " ++ dquote ++ url ++ dquote.

(** The object the metadata handler logs once the output is parsed. *)
Definition summary (videoInfo : VideoInfo) : value :=
  VObj [("title"%string, of_opt VStr (videoInfo.(str) Key.title));
        ("creator"%string,
         of_opt VStr (js_or (videoInfo.(str) Key.uploader) (videoInfo.(str) Key.creator)));
        ("views"%string, of_opt VNum (videoInfo.(num) Key.view_count));
        ("likes"%string, of_opt VNum (videoInfo.(num) Key.like_count))].

(** Calls that answer the request: a JSON body or the file's stream. *)
Definition is_answer (ev : event) : bool :=
  match ev with
  | ResJson _ | PipeToResponse _ => true
  | _ => false
  end.

(** The answering calls of a trace, in order. *)
Definition answers (t : list event) : list event := filter is_answer t.

(** A directory name as [process.cwd()] reports it: plain and without a
    slash. *)
Definition clean (seg : jsstring) : Prop := Path.plain seg /\ Path.no_sep seg = true.

(** An absolute path in normal form: a slash, then clean segments joined
    by slashes. *)
Definition absolute_path (segs : list jsstring) : jsstring :=
  47%N :: Path.join_segments segs.

(** [p] lies inside the directory [dir]. *)
Definition inside (dir p : jsstring) : Prop := exists rest, p = dir ++ 47%N :: rest.

(** Characters that need no escaping in a query string: the unreserved
    ones and the percent sign of an escape. *)
Definition url_safe (c : N) : bool := URI.unreserved c || N.eqb c 37.

(** Every unit fits 16 bits. *)
Definition code_units (s : jsstring) : bool := forallb (fun c => (c <? 65536)%N) s.

(** No unit is a surrogate. *)
Definition no_surrogates (s : jsstring) : bool :=
  forallb (fun c => negb (URI.between 55296 57343 c)) s.

(** How many [#] a string holds. *)
Definition hashes (s : jsstring) : nat := length (filter RegExp.is_hash s).

(** Leap years of the Gregorian calendar. *)
Definition is_leap (y : Z) : bool :=
  (y mod 4 =? 0) && (negb (y mod 100 =? 0) || (y mod 400 =? 0)).

(** The length of month [m] of year [y]. *)
Definition days_in_month (y m : Z) : Z :=
  match m with
  | 2 => if is_leap y then 29 else 28
  | 4 | 6 | 9 | 11 => 30
  | _ => 31
  end.

(** "Month D, Y" for a month from 1 to 12, a day from 1 to 31 and a
    positive year. *)
Definition long_date (s : jsstring) : Prop :=
  exists m d y,
    1 <= m <= 12 /\ 1 <= d <= 31 /\ 1 <= y
    /\ s = DateTime.month_name m ++ lit " " ++ decimal d ++ lit ", " ++ decimal y.

(** [formatDate] finds no valid date: the 8-digit [upload_date] does not
    parse, or there is none and the timestamp is falsy (missing, 0, NaN) or
    out of a [Date]'s range. *)
Definition no_valid_date (host : Host) (u : opt jsstring) (ts : opt float) : Prop :=
  (exists s, u = Val s /\ RegExp.test_8_digits s = true
             /\ DateTime.parse_dashed host.(zone) (dashed s) = InvalidDate)
  \/ (not_8_digits u = true
      /\ (truthy_opt ts = false
          \/ DateTime.of_number (ToNumber ts * 1000) = InvalidDate)).

(** * Properties *)

(** ** Strings and digits *)

Lemma str_eqb_eq a b : str_eqb a b = true <-> a = b.
Proof.
  revert b; induction a as [|x a IH]; intros [|y b]; simpl; split;
    try congruence; try discriminate.
  - intros H. apply andb_prop in H as [Hx Hab].
    apply N.eqb_eq in Hx. apply IH in Hab. congruence.
  - intros H. inversion H; subst. rewrite N.eqb_refl. simpl. now apply IH.
Qed.

Lemma is_video_iff type : is_video type = true <-> type = lit "video".
Proof. apply str_eqb_eq. Qed.

Lemma is_video_false type : type <> lit "video" -> is_video type = false.
Proof.
  intros H. destruct (is_video type) eqn:E; [|reflexivity].
  now apply is_video_iff in E.
Qed.

Lemma uint_units_digits u : forallb is_digit (uint_units u) = true.
Proof. induction u; simpl; auto. Qed.

Lemma decimal_digits n : forallb is_digit (decimal n) = true.
Proof. apply uint_units_digits. Qed.





(** ** [||] with a literal default, and what is missing from a document *)

Lemma js_or_default {A} `{Truthy A} (a : opt A) (d : A) :
  js_or a (Val d)
  = Val (match a with Val x => if truthy x then x else d | _ => d end).
Proof.
  unfold js_or. destruct a as [| |x]; simpl; try reflexivity.
  destruct (truthy x); reflexivity.
Qed.

Lemma missing_paths_obj_nil : missing_paths (VObj []) = [].
Proof. reflexivity. Qed.

Lemma missing_paths_obj_cons k x rest :
  missing_paths (VObj ((k, x) :: rest))
  = map (cons k) (missing_paths x) ++ missing_paths (VObj rest).
Proof. reflexivity. Qed.

Lemma missing_paths_strings (l : list jsstring) :
  missing_paths (VArr (map VStr l)) = [].
Proof. induction l as [|x l IH]; simpl in *; auto. Qed.

Lemma missing_paths_VStr s : missing_paths (VStr s) = [].
Proof. reflexivity. Qed.

Lemma missing_paths_str_val s : missing_paths (of_opt VStr (Val s)) = [].
Proof. reflexivity. Qed.

Lemma missing_paths_num_val x : missing_paths (of_opt VNum (Val x)) = [].
Proof. reflexivity. Qed.

Lemma missing_paths_bool_val b : missing_paths (of_opt VBool (Val b)) = [].
Proof. reflexivity. Qed.

Create Rewrite HintDb missing.
#[export] Hint Rewrite @js_or_default missing_paths_obj_nil missing_paths_obj_cons
  missing_paths_strings missing_paths_VStr missing_paths_str_val
  missing_paths_num_val missing_paths_bool_val : missing.

(** Reading one property of an object literal. *)
Ltac read_prop := cbn [prop lookup String.eqb Ascii.eqb Bool.eqb].

(** ** Numbers *)





(** ** The built-ins on known values *)

Lemma toString_known :
  map Number.toString
      [1080; 0.5; -42.5; 0x1.999999999999ap-4; 1e20; 1e21;
       0x1p-20; next_up 0; nan; infinity; neg_zero]%float
  = map lit ["1080"; "0.5"; "-42.5"; "0.1"; "100000000000000000000"; "1e+21";
             "9.5367431640625e-7"; "5e-324"; "NaN"; "Infinity"; "0"]%string.
Proof. vm_compute. reflexivity. Qed.

(** [1.005] is the double just below it, so two decimals give "1.00"; a
    tie goes to the larger numeral. *)
Lemma toFixed_known :
  map (Number.toFixed 2) [0x1.0147ae147ae14p+0; 2.5; -1.5; 0; 1e21]%float
  = map lit ["1.00"; "2.50"; "-1.50"; "0.00"; "1e+21"]%string
  /\ Number.toFixed 1 0.25 = lit "0.3".
Proof. split; vm_compute; reflexivity. Qed.

Lemma floor_round_rem_known :
  map Number.floor [1.5; -1.5; 0.5; -0.5]%float = [1; -2; 0; -1]%float
  /\ map Number.round [1.5; -1.5; 2.5; 127.75]%float = [2; -1; 3; 128]%float
  /\ map (fun x => Number.rem x 60) [125; -125; 59.5; 3725.75]%float
     = [5; -5; 59.5; 5.75]%float.
Proof. repeat split; vm_compute; reflexivity. Qed.

Lemma formatDuration_known :
  map formatDuration [Val 65; Val 3725.5; Val 600; Val 0; Null; Undefined]%float
  = map lit ["1:05"; "62:05"; "10:00"; "00:00"; "00:00"; "00:00"]%string.
Proof. vm_compute. reflexivity. Qed.

(** Day numbers and calendar days agree: the calendar day of a day number
    has a month from 1 to 12 and a day from 1 to 31, and counts back to that
    day number. *)
Lemma civil_days_roundtrip z :
  let '(y, m, d) := DateTime.civil_from_days z in
  DateTime.days_from_civil y m d = z /\ 1 <= m <= 12 /\ 1 <= d <= 31.
Proof.
  unfold DateTime.civil_from_days, DateTime.days_from_civil.
  set (z' := z + 719468).
  set (era := z' / 146097).
  set (doe := z' - era * 146097).
  assert (Hdoe : 0 <= doe < 146097).
  { subst doe era. pose proof (Z.mod_pos_bound z' 146097 ltac:(lia)) as H.
    rewrite Z.mod_eq in H by lia. lia. }
  set (yoe := (doe - doe / 1460 + doe / 36524 - doe / 146096) / 365).
  set (doy := doe - (365 * yoe + yoe / 4 - yoe / 100)).
  set (mp := (5 * doy + 2) / 153).
  assert (Hyoe : 0 <= yoe <= 399) by (subst yoe; Z.div_mod_to_equations; lia).
  assert (Hdoy : 0 <= doy <= 365) by (subst doy yoe; Z.div_mod_to_equations; lia).
  assert (Hmp : 0 <= mp <= 11) by (subst mp; Z.div_mod_to_equations; lia).
  destruct (mp <? 10) eqn:Emp.
  - apply Z.ltb_lt in Emp.
    destruct (mp + 3 <=? 2) eqn:E1; [apply Z.leb_le in E1; lia|].
    assert (E2 : (2 <? mp + 3) = true) by (apply Z.ltb_lt; lia).
    rewrite E2.
    replace ((yoe + era * 400 + 0) / 400) with era by (Z.div_mod_to_equations; lia).
    replace (mp + 3 - 3) with mp by lia.
    split; [|split; [lia|]].
    + subst doy mp. Z.div_mod_to_equations; lia.
    + subst mp. Z.div_mod_to_equations; lia.
  - apply Z.ltb_ge in Emp.
    assert (E1 : (mp - 9 <=? 2) = true) by (apply Z.leb_le; lia).
    rewrite E1.
    assert (E2 : (2 <? mp - 9) = false) by (apply Z.ltb_ge; lia).
    rewrite E2.
    replace (yoe + era * 400 + 1 - 1) with (yoe + era * 400) by lia.
    replace ((yoe + era * 400) / 400) with era by (Z.div_mod_to_equations; lia).
    replace (mp - 9 + 9) with mp by lia.
    split; [|split; [lia|]].
    + subst doy mp. Z.div_mod_to_equations; lia.
    + subst mp. Z.div_mod_to_equations; lia.
Qed.

Lemma civil_days_known :
  DateTime.days_from_civil 1970 1 1 = 0
  /\ DateTime.civil_from_days 19737 = (2024, 1, 15)
  /\ DateTime.civil_from_days (-25567) = (1900, 1, 1)
  /\ DateTime.civil_from_days 47846 = (2100, 12, 31)
  /\ DateTime.MakeDay 2024 2 30 = DateTime.days_from_civil 2024 3 1.
Proof. repeat split; vm_compute; reflexivity. Qed.

Lemma encodeURIComponent_known :
  URI.encodeURIComponent (lit "https://www.tiktok.com/@user/video/1?a=b c")
  = Some (lit "https%3A%2F%2Fwww.tiktok.com%2F%40user%2Fvideo%2F1%3Fa%3Db%20c")
  /\ URI.encodeURIComponent [233; 8364; 55357; 56832]%N
     = Some (lit "%C3%A9%E2%82%AC%F0%9F%98%80")
  /\ URI.encodeURIComponent [55357]%N = None.
Proof. repeat split; vm_compute; reflexivity. Qed.

Lemma path_join_known :
  Path.join (lit "/home/runner/workspace") (lit "temp")
  = lit "/home/runner/workspace/temp"
  /\ Path.join (lit "/srv/temp") (lit "tiktok-a/../../b-1.mp3")
     = lit "/srv/b-1.mp3"
  /\ Path.normalize (lit "a//b/./c/") = lit "a/b/c/"
  /\ Path.normalize (lit "../../x") = lit "../../x"
  /\ Path.normalize (lit "/../x") = lit "/x".
Proof. repeat split; vm_compute; reflexivity. Qed.

(** ** Hashtags *)

Module HashtagFacts.
Import RegExp.

Lemma word_prefix_app w rest :
  forallb is_word w = true -> starts_with_word rest = false ->
  word_prefix (w ++ rest) = w.
Proof.
  induction w as [|c w IH]; simpl; intros Hw Hr.
  - destruct rest as [|c rest]; simpl in *; [reflexivity | now rewrite Hr].
  - apply andb_prop in Hw as [Hc Hw]. rewrite Hc. f_equal. auto.
Qed.

Lemma word_prefix_split s :
  exists rest, s = word_prefix s ++ rest
               /\ forallb is_word (word_prefix s) = true
               /\ starts_with_word rest = false.
Proof.
  induction s as [|c s (rest & Hs & Hw & Hr)]; simpl.
  - exists []. auto.
  - destruct (is_word c) eqn:Hc.
    + exists rest. simpl. rewrite Hc, Hw. repeat split; auto. now f_equal.
    + exists (c :: s). simpl. auto.
Qed.

Lemma word_prefix_nil s : word_prefix s = [] <-> starts_with_word s = false.
Proof.
  destruct s as [|c s]; simpl; [tauto|]. destruct (is_word c); split; congruence.
Qed.

(** No match starts inside the previous one. *)
Lemma match_all_inside w rest :
  match_all (length w) (w ++ rest) = match_all 0 rest.
Proof. induction w; simpl; auto. Qed.

Lemma match_all_tag c w rest :
  is_hash c = true -> w <> [] -> forallb is_word w = true ->
  starts_with_word rest = false ->
  match_all 0 (c :: w ++ rest) = (c :: w) :: match_all 0 rest.
Proof.
  intros Hc Hne Hw Hr. rewrite <- (match_all_inside w rest).
  simpl. rewrite Hc, (word_prefix_app _ _ Hw Hr).
  destruct w; [congruence | reflexivity].
Qed.

Lemma match_all_skip c rest :
  is_hash c && starts_with_word rest = false ->
  match_all 0 (c :: rest) = match_all 0 rest.
Proof.
  intros H. simpl. destruct (is_hash c); auto.
  simpl in H. apply word_prefix_nil in H. now rewrite H.
Qed.

Lemma Hashtags_unique s tags :
  Hashtags s tags -> tags = map (skipn 1) (match_all 0 s).
Proof.
  induction 1.
  - reflexivity.
  - now rewrite match_all_skip.
  - rewrite match_all_tag by assumption. simpl. now f_equal.
Qed.

Lemma Hashtags_match_all n s :
  (length s <= n)%nat -> Hashtags s (map (skipn 1) (match_all 0 s)).
Proof.
  revert s. induction n as [|n IH]; intros s Hn.
  - destruct s; [constructor | simpl in Hn; lia].
  - destruct s as [|c s]; [constructor|].
    destruct (is_hash c && starts_with_word s) eqn:Hcs.
    + apply andb_prop in Hcs as [Hc Hs].
      destruct (word_prefix_split s) as (rest & Hsplit & Hw & Hr).
      assert (Hne : word_prefix s <> []).
      { intros E. apply word_prefix_nil in E. congruence. }
      rewrite Hsplit at 1 2.
      rewrite match_all_tag by assumption. simpl.
      apply Hashtags_tag; auto. apply IH.
      simpl in Hn. rewrite Hsplit in Hn. rewrite length_app in Hn. lia.
    + rewrite match_all_skip by assumption. apply Hashtags_skip; auto.
      apply IH. simpl in Hn. lia.
Qed.

Lemma extractHashtags_eq t :
  extractHashtags (Val t) = map (skipn 1) (match_all 0 t).
Proof. destruct t; reflexivity. Qed.

End HashtagFacts.

(** ** Paths: the last segment survives normalization *)

Module PathFacts.
Import Path.

Lemma split_no_sep t : no_sep t = true -> split t = [t].
Proof.
  induction t as [|c t IH]; simpl; intros H; [reflexivity|].
  apply andb_prop in H as [Hc Ht]. apply negb_true_iff in Hc.
  rewrite Hc, (IH Ht). reflexivity.
Qed.

Lemma split_app_no_sep p t :
  no_sep t = true ->
  exists segs seg, split p = segs ++ [seg] /\ split (p ++ t) = segs ++ [seg ++ t].
Proof.
  intros Ht. induction p as [|c p (segs & seg & Hp & Hpt)]; simpl.
  - exists [], []. rewrite (split_no_sep _ Ht). auto.
  - rewrite Hp, Hpt. destruct (is_sep c).
    + exists ([] :: segs), seg. auto.
    + destruct segs as [|s0 segs]; simpl.
      * exists [], (c :: seg). auto.
      * exists ((c :: s0) :: segs), seg. auto.
Qed.

Lemma resolve_plain_last allow seg segs stack :
  plain seg ->
  resolve allow stack (segs ++ [seg]) = resolve allow stack segs ++ [seg].
Proof.
  intros (Hne & Hdot & Hdd). revert stack.
  induction segs as [|s segs IH]; intros stack; simpl.
  - destruct seg as [|c seg]; [congruence|]. rewrite Hdot, Hdd. reflexivity.
  - destruct s as [|c s]; [apply IH|].
    destruct (is_dot (c :: s)); [apply IH|].
    destruct (is_dotdot (c :: s)); [|apply IH].
    destruct stack as [|top below]; [apply IH|].
    destruct (is_dotdot top); apply IH.
Qed.

Lemma join_segments_last segs seg :
  exists pre, join_segments (segs ++ [seg]) = pre ++ seg.
Proof.
  induction segs as [|s segs (pre & IH)]; simpl.
  - exists []. reflexivity.
  - rewrite IH. destruct (segs ++ [seg]) eqn:E.
    + destruct segs; discriminate.
    + exists (s ++ 47%N :: pre). now rewrite <- app_assoc.
Qed.

Lemma last_app_cons {A} (q t : list A) (c d : A) : last (q ++ t ++ [c]) d = c.
Proof. rewrite app_assoc. apply last_last. Qed.

(** Normalizing a path keeps what follows its last slash, when that has no
    slash of its own and at least three characters (so it is neither [.]
    nor [..]). *)
Lemma normalize_keeps_last q t c :
  no_sep (t ++ [c]) = true -> (3 <= length (t ++ [c]))%nat ->
  exists pre seg, normalize (q ++ t ++ [c]) = pre ++ seg ++ t ++ [c].
Proof.
  intros Hns Hlen.
  destruct (split_app_no_sep q _ Hns) as (segs & seg & _ & Hsplit).
  assert (Hplain : plain (seg ++ t ++ [c])).
  { assert (L : (3 <= length (seg ++ t ++ [c]))%nat) by (rewrite length_app; lia).
    repeat split.
    - intros E. rewrite E in L. simpl in L. lia.
    - destruct (is_dot _) eqn:E; auto.
      apply str_eqb_eq in E. rewrite E in L. simpl in L. lia.
    - destruct (is_dotdot _) eqn:E; auto.
      apply str_eqb_eq in E. rewrite E in L. simpl in L. lia. }
  assert (Hc : is_sep c = false).
  { unfold no_sep in Hns. rewrite forallb_app in Hns.
    apply andb_prop in Hns as [_ Hc].
    simpl in Hc. rewrite andb_true_r in Hc. now apply negb_true_iff. }
  unfold normalize.
  destruct (q ++ t ++ [c]) as [|c0 p] eqn:Ep.
  { destruct q; destruct t; discriminate. }
  rewrite Hsplit, resolve_plain_last by assumption.
  rewrite <- Ep, last_app_cons, Hc.
  destruct (join_segments_last (resolve (negb (is_sep c0)) [] segs) (seg ++ t ++ [c]))
    as (pre & ->).
  destruct (pre ++ seg ++ t ++ [c]) eqn:Eb.
  { destruct pre; destruct seg; destruct t; discriminate. }
  rewrite <- Eb.
  destruct (is_sep c0); [exists (47%N :: pre), seg | exists pre, seg]; reflexivity.
Qed.

Lemma join_as_normalize a b :
  b <> [] -> exists q, join a b = normalize (q ++ b).
Proof.
  intros Hb. unfold join.
  destruct a as [|a0 a]; destruct b as [|b0 b]; try congruence.
  - exists []. reflexivity.
  - exists ((a0 :: a) ++ [47%N]). now rewrite <- app_assoc.
Qed.

End PathFacts.

Lemma Z_toString_no_sep z : Path.no_sep (Z_toString z) = true.
Proof.
  assert (D : forall s, forallb is_digit s = true -> Path.no_sep s = true).
  { induction s as [|c s IH]; simpl; auto. intros H.
    apply andb_prop in H as [Hc Hs].
    rewrite (IH Hs), andb_true_r. unfold is_digit in Hc.
    apply andb_prop in Hc as [H1 H2]. apply N.leb_le in H1, H2.
    unfold Path.is_sep. apply negb_true_iff, N.eqb_neq. lia. }
  unfold Z_toString. destruct (z <? 0).
  - simpl. apply D, decimal_digits.
  - apply D, decimal_digits.
Qed.

Lemma join_file_name_extension a type z e c :
  Path.no_sep (e ++ [c]) = true ->
  exists stem,
    Path.join a (file_name type z (e ++ [c])) = stem ++ lit "." ++ e ++ [c].
Proof.
  intros He. unfold file_name.
  set (ts := Z_toString z).
  assert (Hns : Path.no_sep ((lit "-" ++ ts ++ lit "." ++ e) ++ [c]) = true).
  { unfold Path.no_sep in *. rewrite <- !app_assoc, !forallb_app.
    rewrite forallb_app in He. rewrite He. fold (Path.no_sep ts).
    unfold ts. rewrite Z_toString_no_sep. reflexivity. }
  destruct (PathFacts.join_as_normalize a
              (lit "tiktok-" ++ type ++ lit "-" ++ ts ++ lit "." ++ e ++ [c]))
    as (q & ->); [discriminate|].
  replace (q ++ lit "tiktok-" ++ type ++ lit "-" ++ ts ++ lit "." ++ e ++ [c])
    with ((q ++ lit "tiktok-" ++ type) ++ (lit "-" ++ ts ++ lit "." ++ e) ++ [c])
    by (rewrite <- !app_assoc; reflexivity).
  destruct (PathFacts.normalize_keeps_last (q ++ lit "tiktok-" ++ type)
              (lit "-" ++ ts ++ lit "." ++ e) c) as (pre & seg & ->).
  - assumption.
  - rewrite !length_app. simpl. lia.
  - exists (pre ++ seg ++ lit "-" ++ ts). rewrite <- !app_assoc. reflexivity.
Qed.

(** The path of the output file ends with a dot and the extension chosen
    for the route parameter, whatever the parameter holds. *)
Lemma outputFile_extension world type :
  exists stem,
    outputFile world type
    = stem ++ lit "." ++ (if is_video type then lit "mp4" else lit "mp3").
Proof.
  unfold outputFile. destruct (is_video type).
  - apply (join_file_name_extension (tempPath world) type (Date_now world)
             (lit "mp") 52%N). reflexivity.
  - apply (join_file_name_extension (tempPath world) type (Date_now world)
             (lit "mp") 51%N). reflexivity.
Qed.

(** ** Dates *)

Lemma test_8_digits_truthy s : RegExp.test_8_digits s = true -> truthy s = true.
Proof. destruct s; [discriminate | reflexivity]. Qed.

(** With an 8-digit [upload_date] the result is decided by the parse of the
    dashed string alone. *)
Lemma formatDate_8_digits host s ts :
  RegExp.test_8_digits s = true ->
  formatDate host (Val s) ts =
    match DateTime.parse_dashed host.(zone) (dashed s) with
    | InvalidDate => lit "Unknown"
    | d => DateTime.toLocaleDateString_en_US_long host.(zone) d
    end.
Proof.
  intros H. unfold formatDate.
  rewrite (test_8_digits_truthy _ H), H. simpl andb. cbv iota.
  fold (dashed s). destruct (DateTime.parse_dashed _ _); reflexivity.
Qed.

(** Without an 8-digit [upload_date] the result is decided by the
    timestamp alone. *)
Lemma formatDate_timestamp host u ts :
  not_8_digits u = true ->
  formatDate host u ts =
    if truthy_opt ts then
      match DateTime.of_number (ToNumber ts * 1000) with
      | InvalidDate => lit "Unknown"
      | d => DateTime.toLocaleDateString_en_US_long host.(zone) d
      end
    else lit "Unknown".
Proof.
  intros H. unfold formatDate.
  assert (E : match u with
              | Val s => truthy s && RegExp.test_8_digits s
              | _ => false
              end = false).
  { destruct u as [| |s]; auto. simpl in H. apply negb_true_iff in H.
    rewrite H. apply andb_false_r. }
  destruct u as [| |s]; try rewrite E;
    destruct (truthy_opt ts); try reflexivity;
    destruct (DateTime.of_number _); reflexivity.
Qed.

(** The timestamp 1700000000 alone gives the local day of the instant
    1700000000000 ms, which on a UTC host is November 14, 2023. *)
Lemma formatDate_1700000000 host u :
  not_8_digits u = true ->
  formatDate host u (Val 1700000000%float)
  = DateTime.toLocaleDateString_en_US_long host.(zone) (DateAt 1700000000000).
Proof. intros H. rewrite formatDate_timestamp by assumption. reflexivity. Qed.

Lemma formatDate_1700000000_utc :
  formatDate utc_host Undefined (Val 1700000000%float) = lit "November 14, 2023".
Proof. vm_compute. reflexivity. Qed.

Lemma formatDate_nothing host : formatDate host Undefined Undefined = lit "Unknown".
Proof. reflexivity. Qed.

(** The upload date 20240115 is rendered as the local day of midnight UTC
    of January 15, 2024: that day at or east of Greenwich, the day before
    west of it. *)
Lemma formatDate_20240115 host ts :
  let off := host.(zone).(tz_offset) 1705276800000 in
  (0 <= off < 86400000 ->
     formatDate host (Val (lit "20240115")) ts = lit "January 15, 2024")
  /\ (-86400000 <= off < 0 ->
     formatDate host (Val (lit "20240115")) ts = lit "January 14, 2024").
Proof.
  intros off. rewrite formatDate_8_digits by reflexivity.
  change (DateTime.parse_dashed (zone host) (dashed (lit "20240115")))
    with (DateAt 1705276800000).
  cbv iota.
  unfold DateTime.toLocaleDateString_en_US_long, DateTime.local_civil, DateTime.msPerDay.
  fold off. split; intros Hoff.
  - replace ((1705276800000 + off) / 86400000) with 19737.
    + vm_compute. reflexivity.
    + apply Z.div_unique with (r := off); lia.
  - replace ((1705276800000 + off) / 86400000) with 19736.
    + vm_compute. reflexivity.
    + apply Z.div_unique with (r := off + 86400000); lia.
Qed.

Lemma formatDate_20240115_utc ts :
  formatDate utc_host (Val (lit "20240115")) ts = lit "January 15, 2024".
Proof. now apply (formatDate_20240115 utc_host ts). Qed.

(** ** Dates: what [formatDate] prints and what [new Date] rejects *)

Lemma toLocale_long_date tz t :
  long_date (DateTime.toLocaleDateString_en_US_long tz (DateAt t)).
Proof.
  unfold DateTime.toLocaleDateString_en_US_long, DateTime.local_civil.
  pose proof (civil_days_roundtrip ((t + tz_offset tz t) / DateTime.msPerDay)) as R.
  destruct (DateTime.civil_from_days _) as [[y m] d]. destruct R as (_ & Hm & Hd).
  exists m, d, (if 0 <? y then y else 1 - y).
  repeat split; try lia.
  destruct (0 <? y) eqn:E; [apply Z.ltb_lt in E | apply Z.ltb_ge in E]; lia.
Qed.

Lemma long_date_is_not_a_notice s :
  long_date s -> s <> lit "Unknown" /\ s <> lit "Invalid Date".
Proof.
  intros (m & d & y & Hm & _ & _ & ->).
  assert (M : m = 1 \/ m = 2 \/ m = 3 \/ m = 4 \/ m = 5 \/ m = 6 \/ m = 7 \/ m = 8
              \/ m = 9 \/ m = 10 \/ m = 11 \/ m = 12) by lia.
  repeat (destruct M as [M|M]); subst m; split; discriminate.
Qed.

Lemma parse_dashed_iso tz s :
  RegExp.test_8_digits s = true ->
  let Y := digits_val (substring 0 4 s) in
  let M := digits_val (substring 4 6 s) in
  let D := digits_val (substring 6 8 s) in
  DateTime.IsMonth M && DateTime.IsDay D = true ->
  DateTime.parse_dashed tz (dashed s)
  = DateAt (DateTime.MakeDay Y M D * DateTime.msPerDay).
Proof.
  intros H. unfold RegExp.test_8_digits in H. apply andb_prop in H as [Hl Hd].
  apply Nat.eqb_eq in Hl.
  destruct s as [|a [|b [|c [|d [|e [|f [|g [|h [|x s]]]]]]]]]; try discriminate.
  intros Y M D HMD.
  unfold dashed, substring. cbn [firstn skipn Nat.sub app lit map list_ascii_of_string].
  change (N_of_ascii "-") with 45%N.
  unfold DateTime.parse_dashed.
  replace (forallb is_digit [a; b; c; d; e; f; g; h]) with true.
  subst Y M D. unfold substring in HMD.
  cbn [firstn skipn Nat.sub] in HMD. rewrite HMD. reflexivity.
Qed.

(** Which dashed strings of digits [new Date] rejects. *)
Lemma parse_dashed_invalid tz s :
  RegExp.test_8_digits s = true ->
  let Y := digits_val (substring 0 4 s) in
  let M := digits_val (substring 4 6 s) in
  let D := digits_val (substring 6 8 s) in
  DateTime.parse_dashed tz (dashed s) = InvalidDate
  <-> ~ (1 <= M <= 12 /\ 1 <= D <= 31) /\ ~ (1 <= Y <= 12 /\ 1 <= M <= 31).
Proof.
  intros H. unfold RegExp.test_8_digits in H. apply andb_prop in H as [Hl Hd].
  apply Nat.eqb_eq in Hl.
  destruct s as [|a [|b [|c [|d [|e [|f [|g [|h [|x s]]]]]]]]]; try discriminate.
  intros Y M D.
  unfold dashed, substring. cbn [firstn skipn Nat.sub app lit map list_ascii_of_string].
  change (N_of_ascii "-") with 45%N.
  unfold DateTime.parse_dashed.
  replace (forallb is_digit [a; b; c; d; e; f; g; h]) with true.
  subst Y M D. unfold substring. cbn [firstn skipn Nat.sub].
  set (Y := digits_val [a; b; c; d]). set (M := digits_val [e; f]).
  set (D := digits_val [g; h]).
  unfold DateTime.IsMonth, DateTime.IsDay.
  destruct (Z.leb_spec 1 M), (Z.leb_spec M 12), (Z.leb_spec 1 D), (Z.leb_spec D 31),
    (Z.leb_spec 1 Y), (Z.leb_spec Y 31), (Z.leb_spec Y 12), (Z.leb_spec M 31);
    cbn [andb]; split; intros G; try discriminate; try reflexivity; try lia.
Qed.

(** ** The document as sent *)

Lemma is_infinity_decoded x :
  is_infinity x = true -> exists s, Prim2SF x = S754_infinity s.
Proof.
  unfold is_infinity. rewrite eqb_spec, abs_spec.
  destruct (Prim2SF x) as [s| s| |s m e]; try discriminate; eauto.
Qed.

(** An infinite number is truthy and not finite. *)
Lemma infinite_is_truthy x :
  is_infinity x = true -> truthy x = true /\ is_finite x = false.
Proof.
  intros H. destruct (is_infinity_decoded x H) as (s & E).
  unfold truthy, truthy_number, is_finite, is_nan. rewrite H, !eqb_spec, E.
  destruct s; split; reflexivity.
Qed.

(** A truthy number is finite or infinite. *)
Lemma truthy_is_finite x :
  truthy x = true -> is_finite x = negb (is_infinity x).
Proof.
  unfold truthy, truthy_number, is_finite. intros H.
  apply negb_true_iff, orb_false_iff in H as [_ ->]. reflexivity.
Qed.

(** A number with a finite default is sent as [null] exactly when the
    extractor reported an infinite one. *)
Lemma number_sent (a : opt float) (d : float) :
  is_finite d = true ->
  defined (JSON_document (of_opt VNum (js_or a (Val d)))) = negb (infinite a).
Proof.
  intros Hd. rewrite js_or_default.
  destruct a as [| |x]; cbn [of_opt JSON_document infinite];
    try (rewrite Hd; reflexivity).
  destruct (truthy x) eqn:T.
  - rewrite (truthy_is_finite x T). destruct (is_infinity x); reflexivity.
  - rewrite Hd. destruct (is_infinity x) eqn:I; [|reflexivity].
    apply infinite_is_truthy in I as [I _]. congruence.
Qed.

(** Strings are sent as they are. *)
(** The extractor output [{"view_count": 1e400}]: the counter handed to
    [res.json] is [Infinity], the counter sent is [null]. *)
Lemma infinite_view_count_is_sent_as_null :
  exists data,
    responseData utc_host sample_url
      (with_num Key.view_count (Val infinity) emptyInfo) = Some data
    /\ at_path ["stats"; "views"]%string data = VNum infinity
    /\ at_path ["stats"; "views"]%string (JSON_document data) = VNull.
Proof. eexists. split; [vm_compute; reflexivity|]. split; reflexivity. Qed.

Lemma JSON_document_strings tags :
  JSON_document (VArr (map VStr tags)) = VArr (map VStr tags).
Proof.
  cbn [JSON_document]. f_equal. induction tags as [|t tags IH]; [reflexivity|].
  cbn [map JSON_document]. now rewrite IH.
Qed.

(** A property of an object with distinct keys is sent as the property
    itself is, when it is sent at all. *)
Lemma lookup_absent k ps : ~ In k (map fst ps) -> lookup k ps = VUndefined.
Proof.
  induction ps as [|[k' x] ps IH]; [reflexivity|]. cbn [map fst In lookup].
  intros H. destruct (String.eqb_spec k k') as [->|_]; [tauto|].
  apply IH. tauto.
Qed.

Lemma prop_JSON_document k ps :
  NoDup (map fst ps) ->
  prop k (JSON_document (VObj ps))
  = match lookup k ps with
    | VUndefined => VUndefined
    | v => JSON_document v
    end.
Proof.
  cbn [JSON_document prop]. induction ps as [|[k' x] ps IH]; [reflexivity|].
  cbn [map fst]. intros D. apply NoDup_cons_iff in D as [Hk D].
  specialize (IH D). cbn [lookup].
  destruct x; cbn [lookup];
    destruct (String.eqb_spec k k') as [->|Hne]; try reflexivity; try exact IH.
  rewrite IH, (lookup_absent _ _ Hk). reflexivity.
Qed.

Lemma defined_prop_sent k ps :
  NoDup (map fst ps) ->
  defined (prop k (JSON_document (VObj ps))) = defined (JSON_document (lookup k ps)).
Proof.
  intros D. rewrite (prop_JSON_document k ps D). now destruct (lookup k ps).
Qed.

Lemma prop_sent_object k ps sub :
  NoDup (map fst ps) -> lookup k ps = VObj sub ->
  prop k (JSON_document (VObj ps)) = JSON_document (VObj sub).
Proof. intros D E. now rewrite (prop_JSON_document k ps D), E. Qed.

Lemma defined_sent_object ps : defined (JSON_document (VObj ps)) = true.
Proof. reflexivity. Qed.

(** The keys of the response's object literals are distinct. *)
Ltac distinct_keys :=
  cbn [map fst];
  repeat (apply NoDup_cons; [cbn [In]; intuition discriminate|]);
  apply NoDup_nil.

(** ** The handlers, case by case *)

Lemma infoHandler_rejects_body host world validate body first rest :
  tiktokInfoSchema_parse validate body = throw (ZodError first rest) ->
  infoHandler host world validate body
  = ([ResStatus 400; ResJson (VObj [("message"%string, VStr first.(message))])],
     Returned tt).
Proof. intros H. unfold infoHandler. rewrite H. reflexivity. Qed.

(** A run of the metadata handler to its 200 response. *)
Lemma infoHandler_known :
  let videoInfo := with_str Key.title (Val (lit "Dance #fyp")) emptyInfo in
  exists data,
    responseData utc_host sample_url videoInfo = Some data
    /\ infoHandler utc_host (metadata_world videoInfo) sample_validator
         (VObj [("url"%string, VStr sample_url)])
       = ([Exec (lit "yt-dlp --dump-json " ++ dquote ++ sample_url ++ dquote);
           ConsoleLog (lit "Video info extracted:")
             (VObj [("title"%string, VStr (lit "Dance #fyp"));
                    ("creator"%string, VUndefined);
                    ("views"%string, VUndefined);
                    ("likes"%string, VUndefined)]);
           ResJson data],
          Returned tt)
    /\ prop "title" data = VStr (lit "Dance #fyp")
    /\ prop "description" data = VStr (lit "Dance #fyp")
    /\ prop "hashtags" data = VArr [VStr (lit "fyp")]
    /\ prop "uploadDate" data = VStr (lit "Unknown").
Proof.
  intros videoInfo. eexists. split; [vm_compute; reflexivity|].
  repeat split; vm_compute; reflexivity.
Qed.

Lemma tiktokInfoSchema_parse_url validate props :
  tiktokInfoSchema_parse validate (VObj props)
  = match validate (prop "url" (VObj props)) with
    | ZodOk url => ret url
    | ZodFail first rest => throw (ZodError first rest)
    end.
Proof. reflexivity. Qed.

(** [setHeader]'s check of a value, unit by unit. *)
Lemma fits_header_iff s : fits_header s <-> forallb header_char s = true.
Proof.
  unfold fits_header. rewrite forallb_forall, Forall_forall.
  assert (C : forall c, (c = 9 \/ 32 <= c <= 126 \/ 128 <= c <= 255)%N
                        <-> header_char c = true).
  { intros c. unfold header_char, URI.between.
    rewrite !orb_true_iff, !andb_true_iff, N.eqb_eq, !N.leb_le. tauto. }
  split; intros H c Hc; apply C, H, Hc.
Qed.

(** The digits and the minus sign of a timestamp fit a header value. *)
Lemma Z_toString_header_chars z : forallb header_char (Z_toString z) = true.
Proof.
  assert (D : forall s, forallb is_digit s = true -> forallb header_char s = true).
  { induction s as [|c s IH]; simpl; auto. intros H.
    apply andb_prop in H as [Hc Hs]. rewrite (IH Hs), andb_true_r.
    unfold is_digit in Hc. apply andb_prop in Hc as [H1 H2].
    apply N.leb_le in H1, H2. unfold header_char, URI.between.
    replace (32 <=? c)%N with true by (symmetry; apply N.leb_le; lia).
    replace (c <=? 126)%N with true by (symmetry; apply N.leb_le; lia).
    now rewrite orb_true_r. }
  unfold Z_toString. destruct (z <? 0).
  - simpl. apply D, decimal_digits.
  - apply D, decimal_digits.
Qed.

(** Whether the [Content-Disposition] value is accepted is decided by the
    route parameter alone. *)
Lemma content_disposition_header_chars type z :
  forallb header_char
    (lit "attachment; filename=" ++ dquote
       ++ file_name type z (if is_video type then lit "mp4" else lit "mp3") ++ dquote)
  = forallb header_char type.
Proof.
  unfold file_name. rewrite !forallb_app, Z_toString_header_chars.
  change (forallb header_char (lit "attachment; filename=")) with true.
  change (forallb header_char dquote) with true.
  change (forallb header_char (lit "tiktok-")) with true.
  change (forallb header_char (lit "-")) with true.
  change (forallb header_char (lit ".")) with true.
  cbn [andb]. rewrite andb_true_r.
  destruct (is_video type); apply andb_true_r.
Qed.

Lemma content_type_header_chars type :
  forallb header_char (if is_video type then lit "video/mp4" else lit "audio/mpeg")
  = true.
Proof. destruct (is_video type); reflexivity. Qed.

Lemma downloadHandler_cases world type url :
  downloadHandler world type url =
  if negb (truthy_opt url) then
    ([ResStatus 400;
      ResJson (VObj [("message"%string, VStr (lit "URL is required"))])],
     Returned tt)
  else if negb (world.(mkdir_ok) (tempPath world)) then
    (Mkdir (tempPath world) :: failure_events MkdirError, Returned tt)
  else
    let start := [Mkdir (tempPath world);
                  Spawn (lit "yt-dlp") (spawn_args world type url)] in
    match world.(spawn_outcome) (lit "yt-dlp") (spawn_args world type url) with
    | SpawnThrows => (start ++ failure_events SpawnError, Returned tt)
    | ChildFails => (start, Crashed ChildError)
    | ChildRuns stderr NeverCloses => (start ++ stderr_events stderr, Pending)
    | ChildRuns stderr (Closed code) =>
        match code with
        | Some 0 =>
            (start ++ stderr_events stderr
               ++ (if forallb header_char type then success_events world type
                   else refused_header_events type),
             Returned tt)
        | _ =>
            (start ++ stderr_events stderr
               ++ failure_events (Error (exit_message code)), Returned tt)
        end
    end.
Proof.
  unfold downloadHandler.
  destruct (truthy_opt url); simpl negb; cbv iota; [|reflexivity].
  unfold mkdir_recursive, spawn_and_wait, res_setHeader.
  rewrite content_type_header_chars, content_disposition_header_chars.
  change ((if is_video type then video_options else audio_options)
            ++ [lit "-o"; outputFile world type; ToString_str url])
    with (spawn_args world type url).
  destruct (mkdir_ok world (tempPath world)); simpl negb; cbv iota; [|reflexivity].
  destruct (spawn_outcome world (lit "yt-dlp") (spawn_args world type url))
    as [|stderr [[[|c|c]|]|]|];
    try destruct (forallb header_char type);
    unfold bind, try_catch, emit, ret, throw, never, crash; simpl;
    rewrite ?app_nil_r;
    first [reflexivity
          | rewrite <- (app_assoc (stderr_events stderr)); reflexivity].
Qed.

Lemma stderr_events_no_file_response stderr :
  existsb is_file_response (stderr_events stderr) = false.
Proof. induction stderr; simpl; auto. Qed.

Lemma stderr_events_only_console stderr ev :
  In ev (stderr_events stderr) -> exists l, ev = ConsoleError l None.
Proof.
  unfold stderr_events. intros H. apply in_map_iff in H as (d & <- & _). eauto.
Qed.

(* ================================================================= *)
(** * The claims *)

(** C1 (as stated, refuted): for the extractor output [{}] the metadata
    handler returns a document whose [creator.avatar] is [undefined], so not
    every field of the response is defined and non-null. *)
Lemma C1_avatar_undefined_for_empty_output :
  exists data,
    responseData utc_host sample_url emptyInfo = Some data
    /\ prop "avatar" (prop "creator" data) = VUndefined
    /\ missing_paths data <> [].
Proof.
  eexists. split; [vm_compute; reflexivity|]. split; [reflexivity | discriminate].
Qed.

(** C1 (amended): whenever [responseData] is built (that is, unless
    [encodeURIComponent] throws on the URL), in the object handed to
    [res.json] the only path that can hold [undefined] or [null] is
    [creator.avatar], which is [uploader_url || channel_url] with no literal
    behind it. In the document that is sent, a field is missing or [null]
    in exactly two cases: [creator.avatar], when that chain is [undefined]
    or [null]; and one of the nine fields that carry a number of the
    extractor's, when the number reported is infinite, which
    [JSON.stringify] writes as [null]. Every hashtag is sent as a string. *)
Theorem C1_fields_missing_from_the_response
    (host : Host) (url : jsstring) (videoInfo : VideoInfo) :
  match responseData host url videoInfo with
  | Some data =>
      let avatar := js_or (videoInfo.(str) Key.uploader_url)
                          (videoInfo.(str) Key.channel_url) in
      prop "avatar" (prop "creator" data) = of_opt VStr avatar
      /\ missing_paths data
         = (if defined (prop "avatar" (prop "creator" data)) then []
            else [["creator"; "avatar"]]%string)
      /\ (forall p, In p response_fields ->
            defined (at_path p (JSON_document data)) = false
            <-> (p = ["creator"; "avatar"]%string /\ absent avatar = true)
                \/ (exists k, In (p, k) numeric_fields
                              /\ infinite (videoInfo.(num) k) = true))
      /\ (exists tags,
            prop "hashtags" (JSON_document data) = VArr (map VStr tags))
  | None => URI.encodeURIComponent url = None
  end.
Proof.
  unfold responseData.
  destruct (URI.encodeURIComponent url) as [enc|]; simpl option_map; [|reflexivity].
  cbv zeta. split; [reflexivity|]. split.
  { unfold responseData_with, metadata, creator, stats, audio, VS.
    autorewrite with missing. cbn [map app]. read_prop.
    destruct (js_or _ _); reflexivity. }
  split.
  - intros p Hp. unfold response_fields in Hp. cbn [In] in Hp.
    repeat (destruct Hp as [<-|Hp]); [..|contradiction];
      unfold at_path; cbn [fold_left]; unfold responseData_with;
      try (erewrite prop_sent_object by first [reflexivity | distinct_keys]);
      rewrite ?defined_prop_sent by distinct_keys;
      rewrite ?defined_sent_object;
      cbn [lookup String.eqb Ascii.eqb Bool.eqb];
      rewrite ?number_sent by reflexivity;
      unfold VS; rewrite ?js_or_default; cbn [of_opt JSON_document defined].
    all: split;
      [ intros L;
        first
          [ discriminate L
          | solve [ right; eexists; split;
                    [ cbn [numeric_fields In];
                      repeat (first [left; reflexivity | right])
                    | now apply negb_false_iff in L ] ]
          | left; split; [reflexivity|]; revert L;
            destruct (js_or _ _); [reflexivity | reflexivity | discriminate] ]
      | intros [[E A]|(k & Hin & I)];
        [ first
            [ discriminate E
            | revert A; destruct (js_or _ _);
              [reflexivity | reflexivity | discriminate] ]
        | cbn [numeric_fields In] in Hin;
          repeat (destruct Hin as [Hin|Hin]; [inversion Hin; subst|]);
          try contradiction; rewrite I; reflexivity ] ].
  - eexists. unfold responseData_with.
    rewrite prop_JSON_document by distinct_keys.
    cbn [lookup String.eqb Ascii.eqb Bool.eqb]. apply JSON_document_strings.
Qed.

(** C2: when the [url] property of the request body does not pass the URL
    validator, [POST /api/tiktok/info] answers with status 400 and the
    message of the first validation issue, and that is all it does: no
    external process is started. *)
Theorem C2_invalid_url_is_rejected_before_any_external_call
    (host : Host) (world : World) (validate : value -> ZodResult)
    (props : list (string * value)) (first : ZodIssue) (rest : list ZodIssue) :
  validate (prop "url" (VObj props)) = ZodFail first rest ->
  infoHandler host world validate (VObj props)
  = ([ResStatus 400; ResJson (VObj [("message"%string, VStr first.(message))])],
     Returned tt)
  /\ existsb is_external_call
       (trace (infoHandler host world validate (VObj props))) = false.
Proof.
  intros H.
  assert (E := infoHandler_rejects_body host world validate (VObj props) first rest).
  rewrite tiktokInfoSchema_parse_url, H in E. specialize (E eq_refl).
  rewrite E. split; reflexivity.
Qed.

(** C2 at a concrete request: a URL of another site is turned away with
    the validator's message. *)
Lemma C2_witness :
  infoHandler utc_host (sample_world SpawnThrows) sample_validator
    (VObj [("url"%string, VStr (lit "http://example.com/video"))])
  = ([ResStatus 400;
      ResJson (VObj [("message"%string, VStr (lit "Please enter a valid TikTok URL"))])],
     Returned tt)
  /\ existsb is_external_call
       (trace (infoHandler utc_host (sample_world SpawnThrows) sample_validator
                 (VObj [("url"%string, VStr (lit "http://example.com/video"))]))) = false.
Proof.
  apply (C2_invalid_url_is_rejected_before_any_external_call
           utc_host (sample_world SpawnThrows) sample_validator
           [("url"%string, VStr (lit "http://example.com/video"))]
           {| message := lit "Please enter a valid TikTok URL" |} []).
  reflexivity.
Defined.

(** C3: on [GET /api/tiktok/download/:type],
    - without a [url] query parameter the response is status 400 with the
      message "URL is required";
    - when the extractor's child process closes with a code other than 0
      the response is status 500 with the message "Failed to download
      content", and the handler sets no header and opens no stream;
    - the produced file is piped into the response only after a close with
      code 0, with no status set (so 200), and only for a route parameter
      that fits a header value;
    - after code 0 the file is piped when the route parameter fits a header
      value; when it does not, [setHeader] refuses the [Content-Disposition]
      and the response is the same status 500, with no stream opened. *)
Theorem C3_download_outcomes (world : World) (type : jsstring) (url : opt jsstring) :
  let run := downloadHandler world type url in
  let child := world.(spawn_outcome) (lit "yt-dlp") (spawn_args world type url) in
  let start := [Mkdir (tempPath world);
                Spawn (lit "yt-dlp") (spawn_args world type url)] in
  (truthy_opt url = false ->
     run = ([ResStatus 400;
             ResJson (VObj [("message"%string, VStr (lit "URL is required"))])],
            Returned tt))
  /\ (forall stderr code,
        truthy_opt url = true ->
        world.(mkdir_ok) (tempPath world) = true ->
        child = ChildRuns stderr (Closed code) ->
        code <> Some 0 ->
        run = (start ++ stderr_events stderr
                 ++ [ConsoleError (lit "Download error:")
                       (Some (Error (exit_message code)));
                     ResStatus 500;
                     ResJson (VObj [("message"%string,
                                     VStr (lit "Failed to download content"))])],
               Returned tt)
        /\ existsb is_file_response (trace run) = false)
  /\ (forall path,
        In (PipeToResponse path) (trace run) ->
        path = outputFile world type
        /\ (exists stderr, child = ChildRuns stderr (Closed (Some 0)))
        /\ fits_header type
        /\ forall code, ~ In (ResStatus code) (trace run))
  /\ (forall stderr,
        truthy_opt url = true ->
        world.(mkdir_ok) (tempPath world) = true ->
        child = ChildRuns stderr (Closed (Some 0)) ->
        fits_header type ->
        run = (start ++ stderr_events stderr
                 ++ [ResSetHeader (lit "Content-Type")
                       (if is_video type then lit "video/mp4" else lit "audio/mpeg");
                     ResSetHeader (lit "Content-Disposition")
                       (lit "attachment; filename=" ++ dquote
                          ++ file_name type world.(Date_now)
                               (if is_video type then lit "mp4" else lit "mp3")
                          ++ dquote);
                     CreateReadStream (outputFile world type);
                     PipeToResponse (outputFile world type)],
               Returned tt))
  /\ (forall stderr,
        truthy_opt url = true ->
        world.(mkdir_ok) (tempPath world) = true ->
        child = ChildRuns stderr (Closed (Some 0)) ->
        ~ fits_header type ->
        run = (start ++ stderr_events stderr
                 ++ [ResSetHeader (lit "Content-Type")
                       (if is_video type then lit "video/mp4" else lit "audio/mpeg");
                     ConsoleError (lit "Download error:")
                       (Some (InvalidCharError (lit "Content-Disposition")));
                     ResStatus 500;
                     ResJson (VObj [("message"%string,
                                     VStr (lit "Failed to download content"))])],
               Returned tt)
        /\ forall path, ~ In (CreateReadStream path) (trace run)).
Proof.
  intros run child start. subst run child start. rewrite downloadHandler_cases.
  setoid_rewrite fits_header_iff.
  split; [|split; [|split; [|split]]].
  - intros ->. reflexivity.
  - intros stderr code -> -> -> Hcode. simpl negb. cbv iota zeta.
    assert (E : forall A (a b : A),
               match code with Some 0 => a | _ => b end = b).
    { intros A a b. destruct code as [[|c|c]|]; congruence. }
    rewrite E. split; [reflexivity|].
    unfold trace, fst. simpl. rewrite existsb_app, stderr_events_no_file_response.
    reflexivity.
  - intros path Hin.
    destruct (truthy_opt url); simpl negb in *; cbv iota in *;
      [|simpl in Hin; intuition discriminate].
    destruct (mkdir_ok world (tempPath world)); simpl negb in *; cbv iota in *;
      [|simpl in Hin; intuition discriminate].
    cbv zeta in *.
    destruct (spawn_outcome world (lit "yt-dlp") (spawn_args world type url))
      as [|stderr [[[|c|c]|]|]|];
      try destruct (forallb header_char type);
      unfold trace, fst in *; simpl in Hin;
      repeat (destruct Hin as [Hin|Hin]; [discriminate|]);
      try (apply in_app_iff in Hin as [Hin|Hin];
           [apply stderr_events_only_console in Hin as [l Hin]; discriminate
           |simpl in Hin; intuition discriminate]);
      try (apply stderr_events_only_console in Hin as [l Hin]; discriminate);
      try (simpl in Hin; intuition discriminate).
    apply in_app_iff in Hin as [Hin|Hin];
      [apply stderr_events_only_console in Hin as [l Hin]; discriminate|].
    simpl in Hin.
    repeat (destruct Hin as [Hin|Hin]; [try discriminate|]); [|contradiction].
    inversion Hin; subst. split; [reflexivity|]. split; [eauto|].
    split; [reflexivity|].
    intros code Hc. simpl in Hc.
    repeat (destruct Hc as [Hc|Hc]; [discriminate|]).
    apply in_app_iff in Hc as [Hc|Hc];
      [apply stderr_events_only_console in Hc as [l Hc]; discriminate|].
    simpl in Hc. intuition discriminate.
  - intros stderr -> -> -> ->. reflexivity.
  - intros stderr -> -> -> Hn. apply not_true_is_false in Hn. rewrite Hn.
    split; [reflexivity|].
    intros path Hin. unfold trace, fst in Hin. simpl in Hin.
    repeat (destruct Hin as [Hin|Hin]; [discriminate|]).
    apply in_app_iff in Hin as [Hin|Hin];
      [apply stderr_events_only_console in Hin as [l Hin]; discriminate|].
    simpl in Hin. intuition discriminate.
Qed.

(** C3 at concrete requests: no [url]; a child that exits with code 1;
    and, for contrast, a child that exits with code 0. *)
Lemma C3_witness :
  let failing := sample_world (ChildRuns [lit "ERROR: Unable to download"] (Closed (Some 1))) in
  let working := sample_world (ChildRuns [] (Closed (Some 0))) in
  downloadHandler failing (lit "video") Undefined
    = ([ResStatus 400;
        ResJson (VObj [("message"%string, VStr (lit "URL is required"))])],
       Returned tt)
  /\ (downloadHandler failing (lit "video") (Val sample_url)
      = ([Mkdir (lit "/home/runner/workspace/temp");
          Spawn (lit "yt-dlp")
            [lit "--format"; lit "best[ext=mp4]"; lit "--force-overwrites"; lit "-o";
             lit "/home/runner/workspace/temp/tiktok-video-1700000000000.mp4";
             sample_url];
          ConsoleError (lit "yt-dlp error: ERROR: Unable to download") None;
          ConsoleError (lit "Download error:")
            (Some (Error (lit "yt-dlp exited with code 1")));
          ResStatus 500;
          ResJson (VObj [("message"%string, VStr (lit "Failed to download content"))])],
         Returned tt)
      /\ existsb is_file_response
           (trace (downloadHandler failing (lit "video") (Val sample_url))) = false)
  /\ downloadHandler working (lit "video") (Val sample_url)
     = ([Mkdir (lit "/home/runner/workspace/temp");
         Spawn (lit "yt-dlp")
           [lit "--format"; lit "best[ext=mp4]"; lit "--force-overwrites"; lit "-o";
            lit "/home/runner/workspace/temp/tiktok-video-1700000000000.mp4";
            sample_url];
         ResSetHeader (lit "Content-Type") (lit "video/mp4");
         ResSetHeader (lit "Content-Disposition")
           (lit "attachment; filename=" ++ dquote
              ++ lit "tiktok-video-1700000000000.mp4" ++ dquote);
         CreateReadStream (lit "/home/runner/workspace/temp/tiktok-video-1700000000000.mp4");
         PipeToResponse (lit "/home/runner/workspace/temp/tiktok-video-1700000000000.mp4")],
        Returned tt)
  /\ (let euro := [8364%N] in
      downloadHandler working euro (Val sample_url)
      = ([Mkdir (lit "/home/runner/workspace/temp");
          Spawn (lit "yt-dlp")
            [lit "--extract-audio"; lit "--audio-format"; lit "mp3";
             lit "--force-overwrites"; lit "-o";
             lit "/home/runner/workspace/temp/tiktok-" ++ euro
               ++ lit "-1700000000000.mp3";
             sample_url];
          ResSetHeader (lit "Content-Type") (lit "audio/mpeg");
          ConsoleError (lit "Download error:")
            (Some (InvalidCharError (lit "Content-Disposition")));
          ResStatus 500;
          ResJson (VObj [("message"%string, VStr (lit "Failed to download content"))])],
         Returned tt)).
Proof.
  intros failing working. split; [|split; [|split]].
  - apply (C3_download_outcomes failing (lit "video") Undefined). reflexivity.
  - pose proof (proj1 (proj2 (C3_download_outcomes failing (lit "video") (Val sample_url)))
                  [lit "ERROR: Unable to download"] (Some 1)
                  eq_refl eq_refl eq_refl) as H.
    destruct H as [H1 H2]; [discriminate|]. split; [|exact H2].
    rewrite H1. vm_compute. reflexivity.
  - rewrite (proj1 (proj2 (proj2 (proj2
               (C3_download_outcomes working (lit "video") (Val sample_url)))))
               [] eq_refl eq_refl eq_refl).
    + vm_compute. reflexivity.
    + apply fits_header_iff. reflexivity.
  - intros euro.
    assert (N : ~ fits_header euro)
      by (intros F; apply fits_header_iff in F; discriminate F).
    rewrite (proj1 (proj2 (proj2 (proj2 (proj2
               (C3_download_outcomes working euro (Val sample_url)))))
               [] eq_refl eq_refl eq_refl N)).
    vm_compute. reflexivity.
Defined.

(** C4: the download handler compares the route parameter with the literal
    "video" and nothing else. With a [url] given and the scratch directory
    made, any other parameter value takes the audio branch: the output path
    ends in [.mp3], the extractor is spawned with the audio options, and
    the only [Content-Type] the handler can set is [audio/mpeg], which it
    sets after exit code 0, and under which it pipes the file when the
    parameter fits a header value. The value "video", and only it, takes
    the [.mp4] / [video/mp4] branch with the video options. *)
Theorem C4_only_video_selects_the_video_branch
    (world : World) (type : jsstring) (url : jsstring) :
  truthy url = true ->
  world.(mkdir_ok) (tempPath world) = true ->
  let run := downloadHandler world type (Val url) in
  let branch (options : list jsstring) (extension mime : jsstring) :=
    (exists stem, outputFile world type = stem ++ lit "." ++ extension)
    /\ In (Spawn (lit "yt-dlp") (options ++ [lit "-o"; outputFile world type; url]))
          (trace run)
    /\ (forall content,
          In (ResSetHeader (lit "Content-Type") content) (trace run) ->
          content = mime)
    /\ (forall stderr,
          world.(spawn_outcome) (lit "yt-dlp")
            (options ++ [lit "-o"; outputFile world type; url])
          = ChildRuns stderr (Closed (Some 0)) ->
          In (ResSetHeader (lit "Content-Type") mime) (trace run)
          /\ (fits_header type ->
              In (PipeToResponse (outputFile world type)) (trace run))) in
  (type <> lit "video" ->
     branch [lit "--extract-audio"; lit "--audio-format"; lit "mp3";
             lit "--force-overwrites"]
            (lit "mp3") (lit "audio/mpeg"))
  /\ (type = lit "video" ->
      branch [lit "--format"; lit "best[ext=mp4]"; lit "--force-overwrites"]
             (lit "mp4") (lit "video/mp4")).
Proof.
  intros Hurl Hmk run branch.
  assert (B : forall v, is_video type = v ->
            branch (if v
                    then [lit "--format"; lit "best[ext=mp4]"; lit "--force-overwrites"]
                    else [lit "--extract-audio"; lit "--audio-format"; lit "mp3";
                          lit "--force-overwrites"])
                   (if v then lit "mp4" else lit "mp3")
                   (if v then lit "video/mp4" else lit "audio/mpeg")).
  { intros v Hv. subst branch run. cbv beta.
    rewrite downloadHandler_cases. unfold truthy_opt. rewrite Hurl, Hmk.
    simpl negb. cbv iota zeta.
    unfold spawn_args, ToString_str. rewrite Hv.
    set (args := (if v
                  then [lit "--format"; lit "best[ext=mp4]"; lit "--force-overwrites"]
                  else [lit "--extract-audio"; lit "--audio-format"; lit "mp3";
                        lit "--force-overwrites"])
                   ++ [lit "-o"; outputFile world type; url]).
    split; [|split; [|split]].
    - destruct (outputFile_extension world type) as (stem & E).
      rewrite Hv in E. eauto.
    - destruct (spawn_outcome world (lit "yt-dlp") args)
        as [|stderr [[[|c|c]|]|]|]; unfold trace, fst; simpl; auto.
    - intros content Hin.
      destruct (spawn_outcome world (lit "yt-dlp") args)
        as [|stderr [[[|c|c]|]|]|];
        try destruct (forallb header_char type);
        unfold trace, fst in Hin; simpl in Hin;
        repeat (destruct Hin as [Hin|Hin]; [discriminate|]);
        try (apply in_app_iff in Hin as [Hin|Hin];
             [apply stderr_events_only_console in Hin as [l Hin]; discriminate
             |simpl in Hin; intuition discriminate]);
        try (apply stderr_events_only_console in Hin as [l Hin]; discriminate);
        try (simpl in Hin; intuition discriminate).
      all: apply in_app_iff in Hin as [Hin|Hin];
        [apply stderr_events_only_console in Hin as [l Hin]; discriminate|];
        unfold success_events, refused_header_events in Hin;
        rewrite Hv in Hin; simpl in Hin;
        (destruct Hin as [Hin|Hin]; [now inversion Hin|]);
        repeat (destruct Hin as [Hin|Hin]; [discriminate|]); contradiction.
    - intros stderr ->. unfold trace, fst. split.
      + apply in_or_app. right. apply in_or_app. right.
        destruct (forallb header_char type);
          unfold success_events, refused_header_events; rewrite Hv; cbv zeta;
          left; reflexivity.
      + intros F. apply fits_header_iff in F. rewrite F.
        apply in_or_app. right. apply in_or_app. right.
        unfold success_events. cbv zeta. right. right. right. left. reflexivity. }
  split; intros Ht.
  - apply (B false). now apply is_video_false.
  - apply (B true). now apply is_video_iff.
Qed.

(** C4 at a concrete request: the parameter "Video", with a capital, is
    not "video" and gets the audio branch. *)
Lemma C4_witness :
  let world := sample_world (ChildRuns [] (Closed (Some 0))) in
  let run := downloadHandler world (lit "Video") (Val sample_url) in
  ((exists stem, outputFile world (lit "Video") = stem ++ lit "." ++ lit "mp3")
   /\ In (Spawn (lit "yt-dlp")
            ([lit "--extract-audio"; lit "--audio-format"; lit "mp3";
              lit "--force-overwrites"]
               ++ [lit "-o"; outputFile world (lit "Video"); sample_url]))
         (trace run)
   /\ (forall content,
         In (ResSetHeader (lit "Content-Type") content) (trace run) ->
         content = lit "audio/mpeg")
   /\ (forall stderr,
         world.(spawn_outcome) (lit "yt-dlp")
           ([lit "--extract-audio"; lit "--audio-format"; lit "mp3";
             lit "--force-overwrites"]
              ++ [lit "-o"; outputFile world (lit "Video"); sample_url])
         = ChildRuns stderr (Closed (Some 0)) ->
         In (ResSetHeader (lit "Content-Type") (lit "audio/mpeg")) (trace run)
         /\ (fits_header (lit "Video") ->
             In (PipeToResponse (outputFile world (lit "Video"))) (trace run))))
  /\ outputFile world (lit "Video")
     = lit "/home/runner/workspace/temp/tiktok-Video-1700000000000.mp3"
  /\ outputFile world (lit "video")
     = lit "/home/runner/workspace/temp/tiktok-video-1700000000000.mp4".
Proof.
  intros world run. split; [|split; vm_compute; reflexivity].
  refine (proj1 (C4_only_video_selects_the_video_branch
                   world (lit "Video") sample_url eq_refl eq_refl) _).
  discriminate.
Defined.

(** C5 (evaluated at the failing input): on a host five hours behind UTC,
    [upload_date = "20240115"] is rendered as January 14, 2024, whatever the
    timestamp: the dashed string is parsed as midnight UTC and then printed
    in local time. *)
Theorem C5_upload_date_one_day_early_west_of_UTC (timestamp : opt float) :
  formatDate west_host (Val (lit "20240115")) timestamp = lit "January 14, 2024".
Proof.
  apply (formatDate_20240115 west_host timestamp). simpl. lia.
Qed.

(** C6: [hashtags] is [extractHashtags] of the description, else of the
    title, else of the empty string (which yields the empty list); the
    tags of a text are exactly the maximal runs of class characters
    ([\w] or U+00C0 to U+017F) that follow a [#], in order of occurrence,
    without the [#], repeated when the text repeats them; and
    "Check this #fun #2024tok out" yields [fun; 2024tok]. *)
Theorem C6_hashtags_are_the_maximal_matches
    (host : Host) (videoInfo : VideoInfo) (encoded : jsstring) :
  let description := videoInfo.(str) Key.description in
  let title := videoInfo.(str) Key.title in
  prop "hashtags" (responseData_with host videoInfo encoded)
    = VArr (map VStr
        (extractHashtags
           (if truthy_opt description then description
            else if truthy_opt title then title
            else Val [])))
  /\ extractHashtags (Val []) = []
  /\ (forall text,
        Hashtags text (extractHashtags (Val text))
        /\ forall tags, Hashtags text tags -> tags = extractHashtags (Val text))
  /\ extractHashtags (Val (lit "Check this #fun #2024tok out"))
     = [lit "fun"; lit "2024tok"]
  /\ extractHashtags (Val (lit "#a #b #a")) = [lit "a"; lit "b"; lit "a"]
  /\ extractHashtags (Val (lit "#caf" ++ [233%N] ++ lit " #" ++ [321%N; 243%N] ++ lit "d" ++ [378%N]))
     = [lit "caf" ++ [233%N]; [321%N; 243%N] ++ lit "d" ++ [378%N]].
Proof.
  intros description title.
  split; [|split; [|split; [|split; [|split]]]]; try (vm_compute; reflexivity).
  - unfold responseData_with. read_prop. subst description title.
    unfold js_or at 1 2.
    destruct (truthy_opt (str videoInfo Key.description)) eqn:E; simpl; rewrite ?E;
      reflexivity.
  - intros text. rewrite HashtagFacts.extractHashtags_eq. split.
    + now apply (HashtagFacts.Hashtags_match_all (length text)).
    + apply HashtagFacts.Hashtags_unique.
Qed.

(** C7 (as stated, refuted): a [view_count] reported as 0 and a missing
    [view_count] give the same response, so the response does not tell an
    explicit 0 from an absent counter. *)
Lemma C7_zero_counter_looks_like_absent_counter :
  absent (emptyInfo.(num) Key.view_count) = true
  /\ responseData utc_host sample_url (with_num Key.view_count (Val 0%float) emptyInfo)
     = responseData utc_host sample_url emptyInfo.
Proof. split; vm_compute; reflexivity. Qed.

(** C7 (amended): when the extractor output lacks the optional numeric
    fields, each numeric-derived output has its literal default -- every
    stats counter (views, likes, comments, shares, favorites) is the
    number 0, the formatted byte sizes are "N/A", the duration is "00:00"
    -- and a counter reported as 0 gives the same response as that counter
    absent: both print 0, and nothing in the response tells them apart. *)
Theorem C7_numeric_defaults (host : Host) (videoInfo : VideoInfo) (encoded : jsstring) :
  let n := videoInfo.(num) in
  (forall k name, In (k, name) counters -> absent (n k) = true ->
     prop name (stats videoInfo) = VNum 0)
  /\ (absent (n Key.duration) = true ->
      prop "duration" (metadata host videoInfo) = VStr (lit "00:00"))
  /\ (absent (n Key.filesize) = true -> absent (n Key.filesize_approx) = true ->
      prop "videoSize" (metadata host videoInfo) = VStr (lit "N/A"))
  /\ (absent (n Key.audio_filesize) = true -> absent (n Key.filesize_approx) = true ->
      prop "audioSize" (metadata host videoInfo) = VStr (lit "N/A"))
  /\ (forall k name, In (k, name) counters ->
      responseData_with host (with_num k (Val 0%float) videoInfo) encoded
      = responseData_with host (with_num k Undefined videoInfo) encoded).
Proof.
  intros n. subst n. split; [|split; [|split; [|split]]].
  - unfold counters. simpl. intros k name Hin Habs.
    repeat (destruct Hin as [Hin|Hin]; [inversion Hin; subst; clear Hin |]);
      try contradiction;
      unfold stats; read_prop;
      destruct (num videoInfo _); try discriminate; reflexivity.
  - intros H. unfold metadata. read_prop.
    destruct (num videoInfo Key.duration); try discriminate; reflexivity.
  - intros H1 H2. unfold metadata. read_prop.
    destruct (num videoInfo Key.filesize); try discriminate;
      destruct (num videoInfo Key.filesize_approx); try discriminate; reflexivity.
  - intros H1 H2. unfold metadata. read_prop.
    destruct (num videoInfo Key.audio_filesize); try discriminate;
      destruct (num videoInfo Key.filesize_approx); try discriminate; reflexivity.
  - unfold counters. simpl. intros k name Hin.
    repeat (destruct Hin as [Hin|Hin]; [inversion Hin; subst; clear Hin |]);
      try contradiction; reflexivity.
Qed.


(** C9 (as stated, refuted): with [height] reported as 720 and [width]
    missing, the resolution is "1080x720", not "1080x1920". *)
Lemma C9_missing_width_keeps_reported_height :
  let videoInfo := with_num Key.height (Val 720%float) emptyInfo in
  absent (videoInfo.(num) Key.width) = true
  /\ prop "resolution" (metadata utc_host videoInfo) = VStr (lit "1080x720")
  /\ prop "resolution" (metadata utc_host videoInfo) <> VStr (lit "1080x1920").
Proof.
  split; [reflexivity|]. split; [vm_compute; reflexivity|].
  vm_compute. discriminate.
Qed.

(** C9 (amended): [metadata.resolution] is "{width}x{height}" where each
    dimension is the extractor's when it is reported (and not 0) and
    otherwise its own default, 1080 for the width and 1920 for the height;
    it is "1080x1920" when both dimensions are missing, and
    [width = 720], [height = 1280] give "720x1280". *)
Theorem C9_resolution_defaults_per_dimension (host : Host) (videoInfo : VideoInfo) :
  let width := videoInfo.(num) Key.width in
  let height := videoInfo.(num) Key.height in
  prop "resolution" (metadata host videoInfo)
    = VStr (Number.toString (dimension width 1080) ++ lit "x"
              ++ Number.toString (dimension height 1920))
  /\ (forall w, truthy w = true -> dimension (Val w) 1080 = w)
  /\ (forall a d, truthy_opt a = false -> dimension a d = d)
  /\ (absent width = true -> absent height = true ->
      prop "resolution" (metadata host videoInfo) = VStr (lit "1080x1920"))
  /\ prop "resolution"
       (metadata host (with_num Key.width (Val 720%float)
                         (with_num Key.height (Val 1280%float) emptyInfo)))
     = VStr (lit "720x1280").
Proof.
  intros width height. subst width height.
  split; [|split; [|split; [|split]]].
  - unfold metadata. read_prop. rewrite !js_or_default. reflexivity.
  - intros w H. unfold dimension. now rewrite H.
  - intros a d H. destruct a as [| |x]; try reflexivity.
    unfold dimension. simpl in H. now rewrite H.
  - intros Hw Hh. unfold metadata. read_prop.
    destruct (num videoInfo Key.width); try discriminate;
      destruct (num videoInfo Key.height); try discriminate;
      vm_compute; reflexivity.
  - vm_compute. reflexivity.
Qed.

(** C10 (as stated, refuted): "20240230" is an 8-digit string that denotes
    no calendar date, February 2024 having 29 days, and [formatDate] does
    not return "Unknown" for it on any host: [new Date("2024-02-30")] is
    carried over into March, and on a host on UTC the result is
    "March 1, 2024". *)
Lemma C10_day_past_the_end_of_the_month_is_carried_over :
  RegExp.test_8_digits (lit "20240230") = true
  /\ days_in_month 2024 2 = 29
  /\ (forall timestamp,
        formatDate utc_host (Val (lit "20240230")) timestamp = lit "March 1, 2024")
  /\ (forall host timestamp,
        formatDate host (Val (lit "20240230")) timestamp <> lit "Unknown").
Proof.
  split; [reflexivity|]. split; [reflexivity|]. split.
  - intros t. rewrite formatDate_8_digits by reflexivity. reflexivity.
  - intros host t. rewrite formatDate_8_digits by reflexivity.
    rewrite (parse_dashed_iso host.(zone) (lit "20240230")) by reflexivity.
    apply long_date_is_not_a_notice, toLocale_long_date.
Qed.

(** C10 (amended): when [upload_date] is an 8-digit string [YYYYMMDD],
    [formatDate] never looks at the timestamp, and it returns "Unknown"
    exactly when [new Date] rejects the dashed string: when the month is not
    from 01 to 12 or the day not from 01 to 31, and the digits cannot be
    read as month-day-year either (a year from 0001 to 0012 with a month
    from 01 to 31, which V8's legacy parser accepts). So for a year above
    0012 the result is "Unknown" exactly when the month is outside 01..12
    or the day outside 01..31, as for "20241399"; a day from 01 to 31 that
    its month does not have is not rejected. *)
Theorem C10_unknown_exactly_when_the_digits_are_rejected
    (host : Host) (uploadDate : jsstring) :
  RegExp.test_8_digits uploadDate = true ->
  let Y := digits_val (substring 0 4 uploadDate) in
  let M := digits_val (substring 4 6 uploadDate) in
  let D := digits_val (substring 6 8 uploadDate) in
  (forall timestamp timestamp',
     formatDate host (Val uploadDate) timestamp
     = formatDate host (Val uploadDate) timestamp')
  /\ (forall timestamp,
        formatDate host (Val uploadDate) timestamp = lit "Unknown"
        <-> ~ (1 <= M <= 12 /\ 1 <= D <= 31) /\ ~ (1 <= Y <= 12 /\ 1 <= M <= 31))
  /\ (12 < Y ->
      forall timestamp,
        formatDate host (Val uploadDate) timestamp = lit "Unknown"
        <-> ~ (1 <= M <= 12 /\ 1 <= D <= 31))
  /\ (1 <= M <= 12 -> 1 <= D <= 31 ->
      forall timestamp,
        formatDate host (Val uploadDate) timestamp
        = DateTime.toLocaleDateString_en_US_long host.(zone)
            (DateAt ((DateTime.days_from_civil Y M 1 + (D - 1)) * DateTime.msPerDay)))
  /\ (forall timestamp,
        formatDate host (Val (lit "20241399")) timestamp = lit "Unknown").
Proof.
  intros H Y M D.
  assert (U : forall t,
             formatDate host (Val uploadDate) t = lit "Unknown"
             <-> ~ (1 <= M <= 12 /\ 1 <= D <= 31) /\ ~ (1 <= Y <= 12 /\ 1 <= M <= 31)).
  { intros t. subst Y M D.
    rewrite <- (parse_dashed_invalid host.(zone) uploadDate H).
    rewrite formatDate_8_digits by exact H.
    destruct (DateTime.parse_dashed _ _) as [|d] eqn:E.
    - split; reflexivity.
    - split; [|discriminate]. intros G. exfalso.
      exact (proj1 (long_date_is_not_a_notice _ (toLocale_long_date host.(zone) d)) G). }
  split; [|split; [|split; [|split]]].
  - intros t t'. now rewrite !formatDate_8_digits.
  - exact U.
  - intros HY t. rewrite U. split; [tauto|]. intros G. split; [exact G | lia].
  - intros HM HD t. rewrite formatDate_8_digits by exact H.
    rewrite (parse_dashed_iso host.(zone) uploadDate H).
    + reflexivity.
    + fold M D. unfold DateTime.IsMonth, DateTime.IsDay.
      repeat (apply andb_true_intro; split); apply Z.leb_le; lia.
  - intros t. rewrite formatDate_8_digits by reflexivity. reflexivity.
Qed.

(** C10 at a concrete input: "20241399" with the timestamp 1700000000,
    which alone would give November 14, 2023. *)
Lemma C10_witness :
  RegExp.test_8_digits (lit "20241399") = true
  /\ formatDate west_host (Val (lit "20241399")) (Val 1700000000%float) = lit "Unknown"
  /\ formatDate west_host Undefined (Val 1700000000%float) = lit "November 14, 2023".
Proof.
  split; [reflexivity|]. split; [|vm_compute; reflexivity].
  apply (proj1 (proj2 (proj2 (C10_unknown_exactly_when_the_digits_are_rejected
                                west_host (lit "20241399") eq_refl)))).
  - reflexivity.
  - intros G. vm_compute in G. destruct G as [[_ G] _]. apply G. reflexivity.
Defined.

(** * Further properties of the handlers *)

(** ** The metadata handler, whatever the world does *)

Lemma tiktokInfoSchema_parse_result validate body :
  tiktokInfoSchema_parse validate body
  = match schema_result validate body with
    | ZodOk url => ret url
    | ZodFail first rest => throw (ZodError first rest)
    end.
Proof. destruct body; reflexivity. Qed.

Lemma infoHandler_cases host world validate body :
  infoHandler host world validate body =
  match schema_result validate body with
  | ZodFail first _ =>
      ([ResStatus 400; ResJson (VObj [("message"%string, VStr first.(message))])],
       Returned tt)
  | ZodOk url =>
      match world.(exec_stdout) (dump_command url) with
      | None => (Exec (dump_command url) :: info_failure_events ExecError, Returned tt)
      | Some stdout =>
          match world.(JSON_parse) stdout with
          | None => (Exec (dump_command url) :: info_failure_events SyntaxError, Returned tt)
          | Some None => (Exec (dump_command url) :: info_failure_events TypeError, Returned tt)
          | Some (Some videoInfo) =>
              match responseData host url videoInfo with
              | None =>
                  (Exec (dump_command url)
                     :: ConsoleLog (lit "Video info extracted:") (summary videoInfo)
                     :: info_failure_events URIError, Returned tt)
              | Some data =>
                  ([Exec (dump_command url);
                    ConsoleLog (lit "Video info extracted:") (summary videoInfo);
                    ResJson data], Returned tt)
              end
          end
      end
  end.
Proof.
  unfold infoHandler. rewrite tiktokInfoSchema_parse_result.
  destruct (schema_result validate body) as [url|first rest]; [|reflexivity].
  unfold execPromise, parse_videoInfo, dump_command.
  cbn [bind emit ret throw try_catch app].
  destruct (exec_stdout world _) as [stdout|]; [|reflexivity].
  cbn [bind emit ret throw try_catch app].
  destruct (JSON_parse world stdout) as [[videoInfo|]|]; try reflexivity.
  unfold log_summary. cbn [bind emit ret throw try_catch app].
  destruct (responseData host url videoInfo); reflexivity.
Qed.



(** X3: A body that is not an object never reaches the URL validator or the
    extractor: the answer is a 400 with one message, the same whatever the
    validator would say, and no process is started. *)
Theorem infoHandler_body_must_be_an_object host world validate body :
  (forall fields, body <> VObj fields) ->
  let run := infoHandler host world validate body in
  status_of (trace run) = 400
  /\ external_calls (trace run) = []
  /\ (exists text, json_bodies (trace run) = [VObj [("message"%string, VStr text)]])
  /\ (forall validate', infoHandler host world validate' body = run).
Proof.
  intros Hbody run. subst run.
  assert (Hs : exists first,
             forall v, schema_result v body = ZodFail first []).
  { destruct body; try (eexists; intros v; reflexivity).
    exfalso. eapply Hbody. reflexivity. }
  destruct Hs as (first & Hs).
  assert (Hrun : forall v, infoHandler host world v body
                 = ([ResStatus 400;
                     ResJson (VObj [("message"%string, VStr first.(message))])],
                    Returned tt)).
  { intros v. rewrite infoHandler_cases, Hs. reflexivity. }
  rewrite Hrun. split; [reflexivity|]. split; [reflexivity|].
  split; [eexists; reflexivity|]. intros v. apply Hrun.
Qed.

(** The same for the body [null], with a validator that would accept
    anything. *)
Lemma infoHandler_body_must_be_an_object_witness :
  let run := infoHandler utc_host (sample_world SpawnThrows) (fun _ => ZodOk sample_url) VNull in
  status_of (trace run) = 400
  /\ external_calls (trace run) = []
  /\ (exists text, json_bodies (trace run) = [VObj [("message"%string, VStr text)]])
  /\ (forall validate', infoHandler utc_host (sample_world SpawnThrows) validate' VNull = run).
Proof.
  apply (infoHandler_body_must_be_an_object utc_host (sample_world SpawnThrows)
           (fun _ => ZodOk sample_url) VNull).
  intros fields. discriminate.
Defined.

(** ** The download handler, whatever the world does *)

Lemma answers_stderr stderr : answers (stderr_events stderr) = [].
Proof. induction stderr; simpl; auto. Qed.

Lemma external_calls_stderr stderr : external_calls (stderr_events stderr) = [].
Proof. induction stderr; simpl; auto. Qed.

Lemma json_bodies_stderr stderr : json_bodies (stderr_events stderr) = [].
Proof. induction stderr; simpl; auto. Qed.

Lemma status_stderr stderr s rest :
  fold_left (fun s ev => match ev with ResStatus c => c | _ => s end)
            (stderr_events stderr ++ rest) s
  = fold_left (fun s ev => match ev with ResStatus c => c | _ => s end) rest s.
Proof. induction stderr; simpl; auto. Qed.

Lemma status_stderr_only stderr s :
  fold_left (fun s ev => match ev with ResStatus c => c | _ => s end)
            (stderr_events stderr) s = s.
Proof. induction stderr; simpl; auto. Qed.

Ltac through_stderr :=
  unfold answers, external_calls, json_bodies, status_of;
  cbn [trace fst snd app filter flat_map fold_left is_answer is_external_call
       failure_events success_events refused_header_events];
  rewrite ?filter_app, ?flat_map_app, ?status_stderr, ?status_stderr_only;
  fold answers external_calls json_bodies;
  rewrite ?answers_stderr, ?external_calls_stderr, ?json_bodies_stderr;
  cbn [trace fst snd app filter flat_map fold_left is_answer is_external_call
       failure_events success_events refused_header_events
       answers external_calls json_bodies].

(** A trace that ends with its only answer, whatever the child wrote to its
    standard error before. *)
Lemma answered_last pre stderr mid x :
  answers pre = [] -> answers mid = [] -> is_answer x = true ->
  exists before answer,
    pre ++ stderr_events stderr ++ mid ++ [x] = before ++ [answer]
    /\ is_answer answer = true /\ answers before = [].
Proof.
  intros Hp Hm Hx. exists (pre ++ stderr_events stderr ++ mid), x.
  split; [now rewrite <- !app_assoc|]. split; [exact Hx|].
  unfold answers. rewrite !filter_app.
  fold (answers pre) (answers (stderr_events stderr)) (answers mid).
  now rewrite Hp, Hm, answers_stderr.
Qed.

(** Settles a conjunct that a finished case analysis has made absurd or
    immediate. *)
Ltac settled :=
  solve [ discriminate
        | reflexivity
        | intros; discriminate
        | intros ? H; discriminate H
        | intros H; decompose [and ex] H; congruence
        | split; [ intros H; decompose [and ex] H; congruence
                 | intros H; decompose [and ex] H; congruence ] ].

(** X4: The download handler's promise never rejects. A run that returns has
    answered exactly once, as its last call. A run fails to return in
    exactly two cases, both after the spawn: the child never closes, and the
    request waits for ever; or the child cannot be started, and its [error]
    event, which has no listener, ends the server process. In neither is
    the request answered. The handler starts exactly one process, the
    [spawn] of the extractor, when [url] is truthy and the scratch directory
    is made, and none otherwise. *)
Theorem downloadHandler_answers_at_most_once world type url :
  let run := downloadHandler world type url in
  let child := world.(spawn_outcome) (lit "yt-dlp") (spawn_args world type url) in
  let reaches_spawn :=
    truthy_opt url = true /\ world.(mkdir_ok) (tempPath world) = true in
  (forall e, snd run <> Threw e)
  /\ (snd run = Returned tt ->
      exists before answer,
        trace run = before ++ [answer] /\ is_answer answer = true
        /\ answers before = [])
  /\ (snd run = Pending <->
      reaches_spawn /\ exists stderr, child = ChildRuns stderr NeverCloses)
  /\ ((exists e, snd run = Crashed e) <-> reaches_spawn /\ child = ChildFails)
  /\ (snd run <> Returned tt -> answers (trace run) = [])
  /\ (reaches_spawn ->
      external_calls (trace run)
      = [Spawn (lit "yt-dlp") (spawn_args world type url)])
  /\ (~ reaches_spawn -> external_calls (trace run) = []).
Proof.
  intros run child reaches_spawn. subst run child reaches_spawn.
  rewrite downloadHandler_cases.
  destruct (truthy_opt url); simpl negb; cbv iota; cbn [snd].
  2:{ split; [settled|]. split; [|split; [settled|]; split; [settled|];
                                  split; [congruence|]; split; settled].
      intros _. eexists [_], _. repeat split. }
  destruct (mkdir_ok world (tempPath world)); simpl negb; cbv iota; cbn [snd].
  2:{ split; [settled|]. split; [|split; [settled|]; split; [settled|];
                                  split; [congruence|]; split; settled].
      intros _. eexists (_ :: _ :: [_]), _. repeat split. }
  cbv zeta.
  assert (R : ~ (true = true /\ true = true) -> forall l : list event, l = [])
    by (intros H; exfalso; apply H; split; reflexivity).
  destruct (spawn_outcome world (lit "yt-dlp") (spawn_args world type url))
    as [|stderr [[[|c|c]|]|]|];
    try destruct (forallb header_char type); cbn [snd];
    (split; [settled|]); (split; [|split; [|split; [|split; [|split]]]]);
    try settled; try (intros _; through_stderr; reflexivity);
    try (intros H; apply R, H); try congruence;
    try (split; [ intros _; split; [split; reflexivity|];
                  first [reflexivity | eexists; reflexivity]
                | intros _; first [reflexivity | eexists; reflexivity] ]);
    intros _; unfold trace, fst, success_events, refused_header_events, failure_events;
    first [ solve [eexists (_ :: _ :: _ :: [_]), _; repeat split]
          | apply (answered_last _ stderr (_ :: _ :: [_]) _); reflexivity
          | apply (answered_last _ stderr (_ :: [_]) _); reflexivity ].
Qed.


(** ** Where the downloaded file is written *)

Module PathMore.

Import Path.

Lemma split_nonempty s : split s <> [].
Proof.
  destruct s as [|c s]; simpl; [discriminate|].
  destruct (is_sep c); [discriminate|]. destruct (split s); discriminate.
Qed.

(** Splitting distributes over a slash. *)
Lemma split_app_slash a b : split (a ++ 47%N :: b) = split a ++ split b.
Proof.
  induction a as [|c a IH]; [reflexivity|]. simpl. rewrite IH.
  destruct (is_sep c); [reflexivity|].
  destruct (split a) eqn:E; [now apply split_nonempty in E | reflexivity].
Qed.

Lemma join_segments_snoc segs seg :
  segs <> [] -> join_segments (segs ++ [seg]) = join_segments segs ++ 47%N :: seg.
Proof.
  induction segs as [|s segs IH]; [congruence|]. intros _.
  destruct segs as [|s' segs].
  - reflexivity.
  - change (join_segments ((s :: s' :: segs) ++ [seg]))
      with (s ++ 47%N :: join_segments ((s' :: segs) ++ [seg])).
    rewrite IH by discriminate.
    change (join_segments (s :: s' :: segs)) with (s ++ 47%N :: join_segments (s' :: segs)).
    now rewrite <- app_assoc.
Qed.

Lemma split_join_segments segs :
  Forall (fun s => no_sep s = true) segs ->
  split (join_segments segs) = match segs with [] => [[]] | _ => segs end.
Proof.
  induction 1 as [|s segs Hs Hsegs IH]; [reflexivity|].
  destruct segs as [|s' segs].
  - simpl. now apply PathFacts.split_no_sep.
  - change (join_segments (s :: s' :: segs)) with (s ++ 47%N :: join_segments (s' :: segs)).
    rewrite split_app_slash, IH, PathFacts.split_no_sep by assumption. reflexivity.
Qed.

(** Plain segments are pushed as they come. *)
Lemma resolve_plain_prefix allow segs stack rest :
  Forall plain segs ->
  resolve allow stack (segs ++ rest) = resolve allow (rev segs ++ stack) rest.
Proof.
  intros H. revert stack. induction H as [|s segs (Hne & Hdot & Hdd) _ IH]; intros stack.
  - reflexivity.
  - simpl. destruct s as [|c s]; [congruence|]. rewrite Hdot, Hdd, IH.
    now rewrite <- app_assoc.
Qed.

Lemma resolve_split_clean allow segs stack rest :
  Forall clean segs ->
  resolve allow stack (split (join_segments segs) ++ rest)
  = resolve allow (rev segs ++ stack) rest.
Proof.
  intros H. rewrite split_join_segments.
  - destruct segs as [|s segs]; [reflexivity|].
    apply resolve_plain_prefix. eapply Forall_impl; [|exact H]. now intros a [Ha _].
  - eapply Forall_impl; [|exact H]. now intros a [_ Ha].
Qed.

Lemma resolve_plain_push allow seg stack rest :
  plain seg -> resolve allow stack (seg :: rest) = resolve allow (seg :: stack) rest.
Proof.
  intros H. apply (resolve_plain_prefix allow [seg] stack rest). now constructor.
Qed.

(** [..] takes back the segment before it. *)
Lemma resolve_dotdot_pop allow top below rest :
  is_dotdot top = false ->
  resolve allow (top :: below) (lit ".." :: rest) = resolve allow below rest.
Proof. intros H. cbn [resolve lit map list_ascii_of_string]. simpl is_dot. simpl is_dotdot at 1. now rewrite H. Qed.

Lemma last_app_nonempty {A} (a b : list A) d : b <> [] -> last (a ++ b) d = last b d.
Proof.
  intros Hb. destruct (exists_last Hb) as (b' & x & ->).
  rewrite app_assoc, !last_last. reflexivity.
Qed.

(** Joining a path in normal form with a relative one resolves the
    relative one's segments on top of its own. *)
Lemma join_absolute segs b :
  Forall clean segs -> b <> [] -> is_sep (last b 0%N) = false ->
  join (absolute_path segs) b
  = absolute_path (resolve false (rev segs) (split b)).
Proof.
  intros Hsegs Hb Hc. unfold join, absolute_path.
  destruct b as [|b0 b'] eqn:Eb; [congruence|].
  rewrite <- Eb in *. clear b0 b' Eb.
  unfold normalize.
  change (is_sep 47) with true. cbn [negb].
  replace (last ((47%N :: join_segments segs) ++ 47%N :: b) 0%N) with (last b 0%N).
  2:{ replace ((47%N :: join_segments segs) ++ 47%N :: b)
        with (((47%N :: join_segments segs) ++ [47%N]) ++ b)
        by (rewrite <- app_assoc; reflexivity).
      now rewrite last_app_nonempty. }
  rewrite Hc.
  change ((47%N :: join_segments segs) ++ 47%N :: b)
    with ([] ++ 47%N :: (join_segments segs ++ 47%N :: b)).
  rewrite split_app_slash. cbn [split app resolve].
  rewrite split_app_slash, resolve_split_clean by assumption.
  rewrite app_nil_r. change (is_sep 47) with true. cbn [negb].
  destruct (join_segments (resolve false (rev segs) (split b))); reflexivity.
Qed.

End PathMore.

Lemma plain_of_length s : (3 <= length s)%nat -> Path.plain s.
Proof.
  intros L. repeat split.
  - intros E. rewrite E in L. simpl in L. lia.
  - destruct (Path.is_dot s) eqn:E; auto.
    apply str_eqb_eq in E. rewrite E in L. simpl in L. lia.
  - destruct (Path.is_dotdot s) eqn:E; auto.
    apply str_eqb_eq in E. rewrite E in L. simpl in L. lia.
Qed.

Lemma no_sep_app a b : Path.no_sep (a ++ b) = Path.no_sep a && Path.no_sep b.
Proof. apply forallb_app. Qed.

Lemma absolute_path_snoc segs seg :
  segs <> [] -> absolute_path (segs ++ [seg]) = absolute_path segs ++ 47%N :: seg.
Proof.
  intros H. unfold absolute_path. now rewrite PathMore.join_segments_snoc.
Qed.

Lemma clean_temp : clean (lit "temp").
Proof. split; [apply plain_of_length; simpl; lia | reflexivity]. Qed.

Lemma tempPath_absolute world segs :
  world.(process_cwd) = absolute_path segs -> Forall clean segs ->
  tempPath world = absolute_path (segs ++ [lit "temp"]).
Proof.
  intros Hcwd Hsegs. unfold tempPath. rewrite Hcwd.
  rewrite PathMore.join_absolute by (assumption || discriminate || reflexivity).
  simpl. now rewrite rev_involutive.
Qed.

Lemma last_no_sep s : s <> [] -> Path.no_sep s = true -> Path.is_sep (last s 0%N) = false.
Proof.
  intros Hne H. destruct (exists_last Hne) as (s' & c & ->).
  rewrite last_last. rewrite no_sep_app in H. apply andb_prop in H as [_ H].
  simpl in H. rewrite andb_true_r in H. now apply negb_true_iff.
Qed.

(** X6: With a route parameter that has no slash, the output file sits directly
    in the scratch directory, under the very name the [Content-Disposition]
    header announces. *)
Theorem outputFile_in_temp world type segs :
  world.(process_cwd) = absolute_path segs -> Forall clean segs ->
  Path.no_sep type = true ->
  let name := file_name type world.(Date_now)
                (if is_video type then lit "mp4" else lit "mp3") in
  tempPath world = absolute_path (segs ++ [lit "temp"])
  /\ outputFile world type = tempPath world ++ 47%N :: name
  /\ Path.no_sep name = true
  /\ inside (tempPath world) (outputFile world type).
Proof.
  intros Hcwd Hsegs Htype name.
  assert (Htemp := tempPath_absolute world segs Hcwd Hsegs).
  assert (Hns : Path.no_sep name = true).
  { subst name. unfold file_name. rewrite !no_sep_app, Htype, Z_toString_no_sep.
    destruct (is_video type); reflexivity. }
  assert (Hpl : Path.plain name).
  { apply plain_of_length. subst name. unfold file_name.
    rewrite length_app. simpl. lia. }
  assert (Hout : outputFile world type = tempPath world ++ 47%N :: name).
  { unfold outputFile. fold name. rewrite Htemp.
    assert (Hne : name <> []) by apply Hpl.
    rewrite PathMore.join_absolute.
    - rewrite (PathFacts.split_no_sep _ Hns).
      destruct Hpl as (Hn & Hd & Hdd). destruct name as [|c nm] eqn:En; [congruence|].
      cbn [Path.resolve]. rewrite Hd, Hdd. cbn [Path.resolve].
      change (rev ((c :: nm) :: rev (segs ++ [lit "temp"])))
        with (rev (rev (segs ++ [lit "temp"])) ++ [c :: nm]).
      rewrite rev_involutive. apply absolute_path_snoc. destruct segs; discriminate.
    - apply Forall_app. split; [assumption|]. constructor; [apply clean_temp | constructor].
    - assumption.
    - now apply last_no_sep. }
  split; [assumption|]. split; [assumption|]. split; [assumption|].
  exists name. assumption.
Qed.

Lemma outputFile_in_temp_witness :
  outputFile (sample_world SpawnThrows) (lit "audio")
  = lit "/home/runner/workspace/temp/tiktok-audio-1700000000000.mp3"
  /\ inside (tempPath (sample_world SpawnThrows))
       (outputFile (sample_world SpawnThrows) (lit "audio")).
Proof.
  assert (H := outputFile_in_temp (sample_world SpawnThrows) (lit "audio")
                 [lit "home"; lit "runner"; lit "workspace"] eq_refl).
  split; [vm_compute; reflexivity|].
  apply H; [|reflexivity].
  repeat constructor; try discriminate.
Defined.

(** X7: A route parameter with [../] in it takes the output file out of the
    scratch directory: the parameter [x/../../NAME] makes the extractor
    write [NAME-<timestamp>.mp3] into the working directory itself. *)
Theorem outputFile_escapes_temp world segs name :
  world.(process_cwd) = absolute_path segs -> Forall clean segs ->
  Path.no_sep name = true ->
  let type := lit "x/../../" ++ name in
  let file := name ++ lit "-" ++ Z_toString world.(Date_now) ++ lit ".mp3" in
  outputFile world type = absolute_path (segs ++ [file])
  /\ ~ inside (tempPath world) (outputFile world type).
Proof.
  intros Hcwd Hsegs Hname type file.
  assert (Htemp := tempPath_absolute world segs Hcwd Hsegs).
  assert (Hns : Path.no_sep file = true).
  { subst file. rewrite !no_sep_app, Hname, Z_toString_no_sep. reflexivity. }
  assert (Hpl : Path.plain file).
  { apply plain_of_length. subst file. rewrite !length_app. simpl. lia. }
  assert (Hout : outputFile world type = absolute_path (segs ++ [file])).
  { unfold outputFile. rewrite Htemp.
    change (is_video type) with false. cbv iota.
    replace (file_name type (Date_now world) (lit "mp3"))
      with (lit "tiktok-x" ++ 47%N :: lit ".." ++ 47%N :: lit ".." ++ 47%N :: file).
    2:{ subst type file. unfold file_name. simpl. rewrite <- ?app_assoc. reflexivity. }
    rewrite PathMore.join_absolute.
    - rewrite !PathMore.split_app_slash, (PathFacts.split_no_sep _ Hns).
      rewrite !PathFacts.split_no_sep by reflexivity.
      rewrite rev_app_distr. cbn [rev app].
      rewrite (PathMore.resolve_plain_push false (lit "tiktok-x"))
        by (repeat constructor; discriminate).
      rewrite !PathMore.resolve_dotdot_pop by reflexivity.
      rewrite (PathMore.resolve_plain_push false file) by assumption.
      cbn [Path.resolve rev]. now rewrite rev_involutive.
    - apply Forall_app. split; [assumption|]. constructor; [apply clean_temp | constructor].
    - discriminate.
    - change (lit "tiktok-x" ++ 47%N :: lit ".." ++ 47%N :: lit ".." ++ 47%N :: file)
        with (lit "tiktok-x/../../" ++ file).
      rewrite PathMore.last_app_nonempty by apply Hpl.
      apply last_no_sep; [apply Hpl | assumption]. }
  split; [assumption|].
  rewrite Hout, Htemp. intros (rest & E).
  assert (F : file = lit "temp" ++ 47%N :: rest).
  { unfold absolute_path in E. destruct segs as [|s segs].
    - simpl in E. injection E as E. exact E.
    - rewrite !PathMore.join_segments_snoc in E by discriminate.
      injection E as E. rewrite <- !app_assoc in E.
      apply app_inv_head in E. injection E as E. exact E. }
  rewrite F in Hns. rewrite no_sep_app in Hns. apply andb_prop in Hns as [_ Hns].
  discriminate.
Qed.

Lemma outputFile_escapes_temp_witness :
  outputFile (sample_world SpawnThrows) (lit "x/../../index")
  = lit "/home/runner/workspace/index-1700000000000.mp3"
  /\ ~ inside (tempPath (sample_world SpawnThrows))
         (outputFile (sample_world SpawnThrows) (lit "x/../../index")).
Proof.
  assert (H := outputFile_escapes_temp (sample_world SpawnThrows)
                 [lit "home"; lit "runner"; lit "workspace"] (lit "index") eq_refl).
  split; [vm_compute; reflexivity|].
  apply H; [|reflexivity].
  repeat constructor; try discriminate.
Defined.

(** ** The download links and the hashtags *)

Module URIFacts.

Import URI.

Lemma hex_digit_safe n : (n < 16)%N -> url_safe (hex_digit n) = true.
Proof.
  intros H. unfold hex_digit, url_safe, unreserved, between.
  destruct (n <? 10)%N eqn:E.
  - apply N.ltb_lt in E.
    assert (A : (48 <=? 48 + n)%N = true) by (apply N.leb_le; lia).
    assert (B : (48 + n <=? 57)%N = true) by (apply N.leb_le; lia).
    rewrite A, B. cbn [andb]. now rewrite !orb_true_r.
  - apply N.ltb_ge in E.
    assert (A : (65 <=? 55 + n)%N = true) by (apply N.leb_le; lia).
    assert (B : (55 + n <=? 90)%N = true) by (apply N.leb_le; lia).
    rewrite A, B. reflexivity.
Qed.

Lemma pct_safe byte : (byte < 256)%N -> forallb url_safe (pct byte) = true.
Proof.
  intros H. unfold pct. cbn [forallb].
  rewrite !hex_digit_safe; [reflexivity | |].
  - apply N.mod_lt. discriminate.
  - apply N.Div0.div_lt_upper_bound. exact H.
Qed.

Lemma pct_utf8_safe cp : (cp < 1114112)%N -> forallb url_safe (pct_utf8 cp) = true.
Proof.
  intros H. unfold pct_utf8.
  assert (M : forall x, (128 + x mod 64 < 256)%N).
  { intros x. pose proof (N.mod_lt x 64 ltac:(discriminate)). lia. }
  destruct (cp <? 128)%N eqn:E1; [apply N.ltb_lt in E1; apply pct_safe; lia|].
  destruct (cp <? 2048)%N eqn:E2.
  { apply N.ltb_lt in E2. rewrite forallb_app, !pct_safe; auto.
    assert (cp / 64 < 32)%N by (apply N.Div0.div_lt_upper_bound; lia). lia. }
  destruct (cp <? 65536)%N eqn:E3.
  { apply N.ltb_lt in E3. rewrite !forallb_app, !pct_safe; auto.
    assert (cp / 4096 < 16)%N by (apply N.Div0.div_lt_upper_bound; lia). lia. }
  rewrite !forallb_app, !pct_safe; auto.
  assert (cp / 262144 < 5)%N by (apply N.Div0.div_lt_upper_bound; lia). lia.
Qed.

Lemma encodeURIComponent_safe_fuel n s e :
  (length s <= n)%nat -> code_units s = true ->
  encodeURIComponent s = Some e -> forallb url_safe e = true.
Proof.
  revert s e. induction n as [|n IH]; intros s e Hn Hu He.
  - destruct s; [|simpl in Hn; lia]. inversion He. reflexivity.
  - destruct s as [|c rest]; [inversion He; reflexivity|].
    simpl in Hu. apply andb_prop in Hu as [Hc Hrest]. apply N.ltb_lt in Hc.
    simpl in Hn. simpl in He.
    destruct (unreserved c) eqn:Ec.
    { destruct (encodeURIComponent rest) as [e'|] eqn:Er; [|discriminate].
      inversion He; subst. simpl. unfold url_safe at 1. rewrite Ec. simpl.
      apply (IH rest); auto. lia. }
    destruct (between 56320 57343 c); [discriminate|].
    destruct (between 55296 56319 c) eqn:Ehigh.
    { destruct rest as [|d rest']; [discriminate|].
      destruct (between 56320 57343 d) eqn:Elow; [|discriminate].
      destruct (encodeURIComponent rest') as [e'|] eqn:Er; [|discriminate].
      inversion He; subst. rewrite forallb_app.
      simpl in Hrest. apply andb_prop in Hrest as [Hd Hrest'].
      rewrite (IH rest' e') by (auto; simpl in Hn; lia). rewrite andb_true_r.
      apply pct_utf8_safe.
      unfold between in Ehigh, Elow.
      apply andb_prop in Ehigh as [H1 H2]. apply andb_prop in Elow as [H3 H4].
      apply N.leb_le in H1, H2, H3, H4. lia. }
    destruct (encodeURIComponent rest) as [e'|] eqn:Er; [|discriminate].
    inversion He; subst. rewrite forallb_app.
    rewrite (IH rest e') by (auto; lia). rewrite andb_true_r.
    apply pct_utf8_safe. lia.
Qed.

Lemma encodeURIComponent_total s :
  no_surrogates s = true -> exists e, encodeURIComponent s = Some e.
Proof.
  induction s as [|c s IH]; intros H; [eexists; reflexivity|].
  simpl in H. apply andb_prop in H as [Hc Hs]. apply negb_true_iff in Hc.
  destruct (IH Hs) as (e & He). simpl. rewrite He.
  destruct (unreserved c); [eexists; reflexivity|].
  assert (L : between 56320 57343 c = false).
  { unfold between in *. apply andb_false_iff in Hc as [Hc|Hc];
      apply N.leb_gt in Hc; apply andb_false_iff; [left|right]; apply N.leb_gt; lia. }
  assert (Hh : between 55296 56319 c = false).
  { unfold between in *. apply andb_false_iff in Hc as [Hc|Hc];
      apply N.leb_gt in Hc; apply andb_false_iff; [left|right]; apply N.leb_gt; lia. }
  rewrite L, Hh. eexists; reflexivity.
Qed.

(** Unreserved characters are left as they are. *)
Lemma encodeURIComponent_unreserved s :
  forallb unreserved s = true -> encodeURIComponent s = Some s.
Proof.
  induction s as [|c s IH]; intros H; [reflexivity|].
  simpl in H. apply andb_prop in H as [Hc Hs]. simpl. now rewrite Hc, IH.
Qed.

End URIFacts.

(** X8: For a URL of 16-bit units with no surrogate the document is always
    built, and its two download links carry the URL percent-encoded: behind
    [url=] there are only unreserved characters and percent escapes. *)
Theorem download_links_are_encoded host url videoInfo :
  code_units url = true -> no_surrogates url = true ->
  exists data encoded,
    responseData host url videoInfo = Some data
    /\ URI.encodeURIComponent url = Some encoded
    /\ prop "videoUrl" data = VStr (lit "/api/tiktok/download/video?url=" ++ encoded)
    /\ prop "audioUrl" data = VStr (lit "/api/tiktok/download/audio?url=" ++ encoded)
    /\ forallb url_safe encoded = true.
Proof.
  intros Hu Hs. destruct (URIFacts.encodeURIComponent_total url Hs) as (e & He).
  exists (responseData_with host videoInfo e), e.
  unfold responseData. rewrite He.
  repeat split.
  apply (URIFacts.encodeURIComponent_safe_fuel (length url) url e); auto.
Qed.

Lemma download_links_are_encoded_witness :
  exists data encoded,
    responseData utc_host sample_url emptyInfo = Some data
    /\ URI.encodeURIComponent sample_url = Some encoded
    /\ prop "videoUrl" data = VStr (lit "/api/tiktok/download/video?url=" ++ encoded)
    /\ prop "audioUrl" data = VStr (lit "/api/tiktok/download/audio?url=" ++ encoded)
    /\ forallb url_safe encoded = true.
Proof.
  apply (download_links_are_encoded utc_host sample_url emptyInfo); reflexivity.
Defined.

Lemma Hashtags_well_formed s tags :
  Hashtags s tags ->
  Forall (fun w => w <> [] /\ forallb RegExp.is_word w = true) tags
  /\ (length tags <= hashes s)%nat.
Proof.
  induction 1 as [|c rest tags Hc _ [IH1 IH2]|c w rest tags Hc Hne Hw Hr _ [IH1 IH2]].
  - split; [constructor | reflexivity].
  - split; [assumption|]. unfold hashes in *. simpl. destruct (RegExp.is_hash c); simpl; lia.
  - split; [constructor; auto|]. unfold hashes in *. cbn [filter]. rewrite Hc.
    cbn [length]. rewrite filter_app, length_app. lia.
Qed.

(** X9: Every hashtag returned is a non-empty run of class characters (so it
    holds no [#], no space and no punctuation), and there are at most as
    many as the text has [#] characters; a text without [#] has none. *)
Theorem hashtags_are_well_formed (text : opt jsstring) :
  let tags := extractHashtags text in
  Forall (fun w => w <> [] /\ forallb RegExp.is_word w = true
                   /\ ~ In 35%N w /\ ~ In 32%N w) tags
  /\ (length tags <= hashes (ToString_str text))%nat
  /\ (hashes (ToString_str text) = 0%nat -> tags = []).
Proof.
  intros tags. subst tags.
  assert (G : forall t,
    Forall (fun w => w <> [] /\ forallb RegExp.is_word w = true
                     /\ ~ In 35%N w /\ ~ In 32%N w) (extractHashtags (Val t))
    /\ (length (extractHashtags (Val t)) <= hashes t)%nat).
  { intros t.
    destruct (Hashtags_well_formed t (extractHashtags (Val t))) as [F L].
    - rewrite HashtagFacts.extractHashtags_eq.
      now apply (HashtagFacts.Hashtags_match_all (length t)).
    - split; [|assumption].
      eapply Forall_impl; [|exact F]. intros w (Hne & Hw).
      rewrite forallb_forall in Hw.
      split; [assumption|]. split; [now apply forallb_forall|].
      split; intros Hin; apply Hw in Hin; discriminate. }
  destruct text as [| |t].
  - repeat split; constructor || (simpl; lia).
  - repeat split; constructor || (simpl; lia).
  - destruct (G t) as [F L]. split; [assumption|]. split; [assumption|].
    cbn [ToString_str]. intros Z. rewrite Z in L.
    destruct (extractHashtags (Val t)); [reflexivity|]. simpl in L. lia.
Qed.

(** ** The upload date *)

Module CalendarFacts.

(** Within a year that starts in March: the month and the day come back
    from the day of the year. *)
Lemma month_of_day_of_year mp d :
  0 <= mp <= 11 ->
  1 <= d <= match mp with 1 | 3 | 6 | 8 => 30 | 11 => 29 | _ => 31 end ->
  let doy := (153 * mp + 2) / 5 + d - 1 in
  (5 * doy + 2) / 153 = mp /\ doy - (153 * mp + 2) / 5 + 1 = d
  /\ 0 <= doy <= 365 /\ (doy = 365 -> mp = 11 /\ d = 29).
Proof.
  intros Hmp Hd doy.
  assert (M : mp = 0 \/ mp = 1 \/ mp = 2 \/ mp = 3 \/ mp = 4 \/ mp = 5 \/ mp = 6
              \/ mp = 7 \/ mp = 8 \/ mp = 9 \/ mp = 10 \/ mp = 11) by lia.
  subst doy.
  repeat (destruct M as [M|M]); subst mp;
    match goal with
    | |- context [(153 * ?k + 2) / 5] =>
        let v := eval vm_compute in ((153 * k + 2) / 5) in
        change ((153 * k + 2) / 5) with v
    end;
    (split; [Z.div_mod_to_equations; lia | lia]).
Qed.

(** Within an era of 400 years that starts in March: the year comes back
    from the day of the era. The last day of a year, numbered 365, exists
    only before a leap February. *)
Lemma year_of_day_of_era yoe doy :
  0 <= yoe <= 399 -> 0 <= doy <= 365 ->
  (doy = 365 -> yoe mod 4 = 3 /\ (yoe mod 100 <> 99 \/ yoe = 399)) ->
  let doe := yoe * 365 + yoe / 4 - yoe / 100 + doy in
  0 <= doe < 146097
  /\ (doe - doe / 1460 + doe / 36524 - doe / 146096) / 365 = yoe.
Proof.
  intros Hy Hd Hl doe. subst doe.
  split; [Z.div_mod_to_equations; lia|].
  Z.div_mod_to_equations. lia.
Qed.

(** A real calendar day comes back from its day number. *)
Lemma civil_of_valid_day y m d :
  1 <= m <= 12 -> 1 <= d <= days_in_month y m ->
  DateTime.civil_from_days (DateTime.days_from_civil y m d) = (y, m, d).
Proof.
  intros Hm Hd.
  unfold DateTime.days_from_civil.
  set (y' := if m <=? 2 then y - 1 else y).
  set (era := y' / 400).
  set (yoe := y' - era * 400).
  set (mp := if 2 <? m then m - 3 else m + 9).
  assert (Hyoe : 0 <= yoe <= 399) by (subst yoe era; Z.div_mod_to_equations; lia).
  assert (Hmp : 0 <= mp <= 11) by (subst mp; destruct (2 <? m) eqn:E; lia).
  assert (Hback : (if mp <? 10 then mp + 3 else mp - 9) = m).
  { subst mp. destruct (2 <? m) eqn:E.
    - apply Z.ltb_lt in E. destruct (m - 3 <? 10) eqn:F; [lia|]. apply Z.ltb_ge in F. lia.
    - apply Z.ltb_ge in E. destruct (m + 9 <? 10) eqn:F; [apply Z.ltb_lt in F; lia | lia]. }
  assert (Hlen : d <= match mp with 1 | 3 | 6 | 8 => 30 | 11 => 29 | _ => 31 end
                 /\ (mp = 11 -> d = 29 -> is_leap y = true /\ m = 2)).
  { unfold days_in_month in Hd.
    assert (M : m = 1 \/ m = 2 \/ m = 3 \/ m = 4 \/ m = 5 \/ m = 6 \/ m = 7
                \/ m = 8 \/ m = 9 \/ m = 10 \/ m = 11 \/ m = 12) by lia.
    subst mp.
    repeat (destruct M as [M|M]); subst m; cbn in Hd |- *;
      try (split; [lia | intros; lia]).
    destruct (is_leap y); split; try lia; intros; split; auto; lia. }
  destruct Hlen as [Hlen Hfeb].
  destruct (month_of_day_of_year mp d Hmp (conj (proj1 Hd) Hlen))
    as (Hmonth & Hday & Hdoy & Hlast).
  set (doy := (153 * mp + 2) / 5 + d - 1) in *.
  assert (Hleap : doy = 365 -> yoe mod 4 = 3 /\ (yoe mod 100 <> 99 \/ yoe = 399)).
  { intros E. destruct (Hlast E) as [E1 E2]. destruct (Hfeb E1 E2) as [L ->].
    unfold is_leap in L. apply andb_prop in L as [L4 L100].
    apply Z.eqb_eq in L4. subst yoe era y'. cbn [Z.leb Z.compare Pos.compare Pos.compare_cont].
    cbv iota.
    destruct (y mod 100 =? 0) eqn:E100; simpl in L100.
    - apply Z.eqb_eq in L100, E100. Z.div_mod_to_equations. lia.
    - apply Z.eqb_neq in E100. Z.div_mod_to_equations. lia. }
  destruct (year_of_day_of_era yoe doy Hyoe Hdoy Hleap) as (Hdoe & Hyear).
  set (doe := yoe * 365 + yoe / 4 - yoe / 100 + doy) in *.
  unfold DateTime.civil_from_days.
  replace (era * 146097 + doe - 719468 + 719468) with (era * 146097 + doe) by lia.
  replace ((era * 146097 + doe) / 146097) with era
    by (apply Z.div_unique with (r := doe); lia).
  replace (era * 146097 + doe - era * 146097) with doe by lia.
  rewrite Hyear.
  replace (doe - (365 * yoe + yoe / 4 - yoe / 100)) with doy by (subst doe; lia).
  rewrite Hmonth, Hday, Hback.
  f_equal. f_equal. subst yoe y'. destruct (m <=? 2); lia.
Qed.

Lemma days_from_civil_day y m d :
  DateTime.days_from_civil y m d = DateTime.days_from_civil y m 1 + (d - 1).
Proof. unfold DateTime.days_from_civil. lia. Qed.

End CalendarFacts.

(** X10: [formatDate] returns "Unknown" or a long-form date with a month from 1
    to 12, a day from 1 to 31 and a positive year, never "Invalid Date"; and
    it returns "Unknown" exactly when it finds no valid date. *)
Theorem formatDate_shape host uploadDate timestamp :
  let result := formatDate host uploadDate timestamp in
  (result = lit "Unknown" \/ long_date result)
  /\ result <> lit "Invalid Date"
  /\ (result = lit "Unknown" <-> no_valid_date host uploadDate timestamp).
Proof.
  intros result. subst result. unfold no_valid_date.
  destruct (not_8_digits uploadDate) eqn:E8.
  - rewrite formatDate_timestamp by assumption.
    destruct (truthy_opt timestamp).
    + destruct (DateTime.of_number _) as [|t] eqn:Ed.
      * split; [now left|]. split; [discriminate|]. split; auto.
      * pose proof (toLocale_long_date host.(zone) t) as L.
        destruct (long_date_is_not_a_notice _ L) as [N1 N2].
        split; [now right|]. split; [assumption|]. split; [congruence|].
        intros [(s & -> & Hs & _) | [_ [H|H]]]; try discriminate.
        unfold not_8_digits in E8. rewrite Hs in E8. discriminate.
    + split; [now left|]. split; [discriminate|]. split; auto.
  - destruct uploadDate as [| |s]; try discriminate.
    unfold not_8_digits in E8. apply negb_false_iff in E8.
    rewrite formatDate_8_digits by assumption.
    destruct (DateTime.parse_dashed _ _) as [|t] eqn:Ed.
    + split; [now left|]. split; [discriminate|]. split; [|reflexivity].
      intros _. left. exists s. auto.
    + pose proof (toLocale_long_date host.(zone) t) as L.
      destruct (long_date_is_not_a_notice _ L) as [N1 N2].
      split; [now right|]. split; [assumption|]. split; [congruence|].
      intros [(s' & Hs' & _ & Hp) | [H _]].
      * inversion Hs'; subst. congruence.
      * discriminate.
Qed.

(** X11: On a host whose clock is at or ahead of UTC by less than a day, an
    [upload_date] that names a real calendar day of a year from 0001 on is
    printed as that very day. *)
Theorem formatDate_valid_calendar_day host s timestamp :
  RegExp.test_8_digits s = true ->
  let Y := digits_val (substring 0 4 s) in
  let M := digits_val (substring 4 6 s) in
  let D := digits_val (substring 6 8 s) in
  1 <= Y -> 1 <= M <= 12 -> 1 <= D <= days_in_month Y M ->
  0 <= host.(zone).(tz_offset) (DateTime.days_from_civil Y M D * DateTime.msPerDay)
    < DateTime.msPerDay ->
  formatDate host (Val s) timestamp
  = DateTime.month_name M ++ lit " " ++ decimal D ++ lit ", " ++ decimal Y.
Proof.
  intros H8 Y M D HY HM HD Hoff.
  assert (HD31 : D <= 31).
  { clear - HM HD. clearbody Y M D. unfold days_in_month in HD.
    assert (Mc : M = 1 \/ M = 2 \/ M = 3 \/ M = 4 \/ M = 5 \/ M = 6 \/ M = 7
                 \/ M = 8 \/ M = 9 \/ M = 10 \/ M = 11 \/ M = 12) by lia.
    repeat (destruct Mc as [Mc|Mc]); subst M; cbn in HD;
      try destruct (is_leap Y); lia. }
  rewrite formatDate_8_digits by assumption.
  rewrite parse_dashed_iso; [|assumption|].
  2:{ fold M D. unfold DateTime.IsMonth, DateTime.IsDay.
      apply andb_true_intro; split; apply andb_true_intro; split; apply Z.leb_le; lia. }
  fold Y M D.
  unfold DateTime.MakeDay. rewrite <- CalendarFacts.days_from_civil_day.
  unfold DateTime.toLocaleDateString_en_US_long, DateTime.local_civil.
  set (days := DateTime.days_from_civil Y M D) in *.
  replace ((days * DateTime.msPerDay
            + tz_offset (zone host) (days * DateTime.msPerDay)) / DateTime.msPerDay)
    with days.
  2:{ apply Z.div_unique with (r := tz_offset (zone host) (days * DateTime.msPerDay));
        unfold DateTime.msPerDay in *; lia. }
  subst days. rewrite CalendarFacts.civil_of_valid_day by assumption.
  assert (E : (0 <? Y) = true) by (apply Z.ltb_lt; lia).
  rewrite E. reflexivity.
Qed.

Lemma formatDate_valid_calendar_day_witness :
  formatDate utc_host (Val (lit "20240229")) (Val 1700000000%float)
  = DateTime.month_name 2 ++ lit " " ++ decimal 29 ++ lit ", " ++ decimal 2024.
Proof.
  apply (formatDate_valid_calendar_day utc_host (lit "20240229") (Val 1700000000%float));
    vm_compute; intuition discriminate.
Defined.

(** ** Fields of the response document *)

Lemma dimension_truthy a d : truthy d = true -> truthy (dimension a d) = true.
Proof.
  intros Hd. unfold dimension. destruct a as [| |x]; try exact Hd.
  destruct (truthy x) eqn:E; [exact E | exact Hd].
Qed.

(** A truthy number is sent as it is, unless it is infinite. *)
Lemma truthy_number_sent x :
  truthy x = true ->
  JSON_document (VNum x) = if is_infinity x then VNull else VNum x.
Proof.
  intros T. cbn [JSON_document]. rewrite (truthy_is_finite x T).
  unfold truthy, truthy_number in T.
  apply negb_true_iff, orb_false_iff in T as [-> _].
  destruct (is_infinity x); reflexivity.
Qed.

(** X12: In every response [resolution] is the string "WxH" of two truthy
    numbers, the reported dimensions or their defaults, and the numeric
    [width] and [height] handed to [res.json] are those same two numbers.
    As sent, [resolution] is unchanged, and [width] and [height] are the
    same numbers again unless one is infinite: an infinite dimension is sent
    as [null] beside a [resolution] that prints it as "Infinity", and only
    then do the string and the numeric fields of one response disagree. *)
Theorem resolution_matches_dimensions host videoInfo :
  let m := metadata host videoInfo in
  let w := dimension (videoInfo.(num) Key.width) 1080 in
  let h := dimension (videoInfo.(num) Key.height) 1920 in
  truthy w = true /\ truthy h = true
  /\ prop "resolution" m = VStr (Number.toString w ++ lit "x" ++ Number.toString h)
  /\ prop "width" m = VNum w /\ prop "height" m = VNum h
  /\ prop "resolution" (JSON_document m) = prop "resolution" m
  /\ prop "width" (JSON_document m) = (if is_infinity w then VNull else VNum w)
  /\ prop "height" (JSON_document m) = (if is_infinity h then VNull else VNum h)
  /\ (is_infinity w = true ->
      exists sign,
        (sign = [] \/ sign = lit "-")
        /\ prop "resolution" (JSON_document m)
           = VStr (sign ++ lit "Infinityx" ++ Number.toString h)).
Proof.
  intros m w h.
  assert (Tw : truthy w = true) by (apply dimension_truthy; reflexivity).
  assert (Th : truthy h = true) by (apply dimension_truthy; reflexivity).
  assert (R : prop "resolution" m
              = VStr (Number.toString w ++ lit "x" ++ Number.toString h)).
  { subst m w h. unfold metadata. read_prop. now rewrite !js_or_default. }
  assert (W : prop "width" m = VNum w).
  { subst m w. unfold metadata. read_prop. now rewrite js_or_default. }
  assert (H : prop "height" m = VNum h).
  { subst m h. unfold metadata. read_prop. now rewrite js_or_default. }
  assert (S : forall k, prop k (JSON_document m)
                        = match prop k m with
                          | VUndefined => VUndefined
                          | v => JSON_document v
                          end).
  { intros k. subst m. unfold metadata.
    rewrite prop_JSON_document by distinct_keys. reflexivity. }
  split; [exact Tw|]. split; [exact Th|]. split; [exact R|].
  split; [exact W|]. split; [exact H|].
  split; [rewrite S, R; reflexivity|].
  split; [rewrite S, W; apply (truthy_number_sent w Tw)|].
  split; [rewrite S, H; apply (truthy_number_sent h Th)|].
  intros I. rewrite S, R. cbn [JSON_document].
  destruct (is_infinity_decoded w I) as (sg & E).
  unfold Number.toString at 1. rewrite E.
  exists (if sg then lit "-" else []).
  split; [destruct sg; auto|]. now rewrite <- !app_assoc.
Qed.

Lemma js_or_truthy {A} `{Truthy A} (a b : opt A) :
  truthy_opt a = true -> js_or a b = a.
Proof. intros E. unfold js_or. now rewrite E. Qed.

Lemma js_or_falsy {A} `{Truthy A} (a b : opt A) :
  truthy_opt a = false -> js_or a b = b.
Proof. intros E. unfold js_or. now rewrite E. Qed.

(** X13: [title] and [description] stand in for each other: both are always
    strings; when only one of them is reported both carry it; when neither
    is, each has its own placeholder; when both are, each keeps its own. *)
Theorem title_and_description_mirror host videoInfo encoded :
  let data := responseData_with host videoInfo encoded in
  let title := videoInfo.(str) Key.title in
  let description := videoInfo.(str) Key.description in
  (forall t, title = Val t -> truthy t = true -> truthy_opt description = false ->
     prop "title" data = VStr t /\ prop "description" data = VStr t)
  /\ (forall d, description = Val d -> truthy d = true -> truthy_opt title = false ->
     prop "title" data = VStr d /\ prop "description" data = VStr d)
  /\ (truthy_opt title = false -> truthy_opt description = false ->
     prop "title" data = VStr (lit "TikTok Video")
     /\ prop "description" data = VStr (lit "No description available"))
  /\ (forall t d, title = Val t -> description = Val d ->
     truthy t = true -> truthy d = true ->
     prop "title" data = VStr t /\ prop "description" data = VStr d).
Proof.
  intros data title description. subst data title description.
  unfold responseData_with. read_prop.
  split; [|split; [|split]].
  - intros t Et Ht Hd. rewrite Et in *.
    rewrite (js_or_falsy _ (Val t) Hd), !(js_or_truthy (Val t)) by exact Ht. auto.
  - intros d Ed Hd Ht. rewrite Ed in *.
    rewrite (js_or_falsy _ (Val d) Ht), !(js_or_truthy (Val d)) by exact Hd. auto.
  - intros Ht Hd.
    repeat (rewrite (js_or_falsy _ _ Ht) || rewrite (js_or_falsy _ _ Hd)). auto.
  - intros t d Et Ed Ht Hd. rewrite Et, Ed.
    rewrite !(js_or_truthy (Val t)), !(js_or_truthy (Val d)) by assumption. auto.
Qed.
